(** * The migrations runner of tools/migrate/runner.go

    A shallow embedding of [Runner] (construction, [Run], [Up], [Down] and the
    four ledger helpers) over an explicit model of the database connection,
    followed by the properties of the runner that the specification states.

    Layout of the embedding:
    - Go values: [error] (with [fmt.Errorf]'s [%w] wrapping), the three ways a
      call can end ([result]: a value, an error, a panic) and the machine [int];
    - the store: tables of ledger rows addressed by name, the application data
      the migration units work on, and the environment of a connection
      (statement faults, the clock, the statements issued so far);
    - the runner itself, one definition per source function. *)

From Stdlib Require Import List String Ascii ZArith Lia Bool DecimalString.
Import ListNotations.

Set Implicit Arguments.

Local Open Scope string_scope.
Local Open Scope list_scope.
Local Open Scope Z_scope.

(* ================================================================== *)
(** ** Go values *)

(** A Go [error]: either a plain error carrying its message, or the value of
    [fmt.Errorf] with a [%w] verb, which keeps the wrapped cause. *)
Inductive error : Type :=
| ErrNew (msg : string)
| ErrWrap (msg : string) (cause : error).

(** [err.Error()] *)
Definition Error (e : error) : string :=
  match e with
  | ErrNew msg => msg
  | ErrWrap msg _ => msg
  end.

(** [errors.Unwrap(err)] *)
Definition Unwrap (e : error) : option error :=
  match e with
  | ErrNew _ => None
  | ErrWrap _ cause => Some cause
  end.

(** [fmt.Errorf(prefix + "%s: %w", s, err)]: the four wrapping calls of the
    runner all have this shape. *)
Definition Errorf_s_w (prefix s : string) (err : error) : error :=
  ErrWrap (prefix ++ s ++ ": " ++ Error err) err.

(** How a call ends: with a value, with a non-nil [error], or by panicking. *)
Inductive result (A : Type) : Type :=
| Ok (a : A)
| Err (e : error)
| Panic (msg : string).

Arguments Ok {A} a.
Arguments Err {A} e.
Arguments Panic {A} msg.

(** Go's [int] on the 64-bit targets: a two's complement word. *)
Definition int_min : Z := - 2 ^ 63.
Definition int_max : Z := 2 ^ 63 - 1.

Definition is_int (z : Z) : Prop := int_min <= z <= int_max.

Definition int_wrap (z : Z) : Z := (z + 2 ^ 63) mod 2 ^ 64 - 2 ^ 63.

(** [a - b] on [int] *)
Definition int_sub (a b : Z) : Z := int_wrap (a - b).

(** [fmt.Sprintf("%d", n)] *)
Definition Itoa (n : Z) : string := NilZero.string_of_int (Z.to_int n).

(* ================================================================== *)
(** ** The store *)

(** [const migrationsTable = "_migrations"] *)
Definition migrationsTable : string := "_migrations".

(** A row of the ledger table, as declared by the DDL of
    [createMigrationsTable]:
    [file VARCHAR(255) PRIMARY KEY NOT NULL, applied INTEGER NOT NULL]. *)
Record Row : Type := { row_file : string; row_applied : Z }.

(** The statements the runner sends to the database. *)
Inductive stmt : Type :=
| CreateTableIfNotExists (table : string)
| SelectCountWhereFile (table file : string)
| InsertRow (table file : string) (applied : Z)
| DeleteWhereFile (table file : string).

(** the count selected by [WHERE file = f] *)
Definition count_file (f : string) (rows : list Row) : Z :=
  Z.of_nat (List.length (filter (fun r => String.eqb (row_file r) f) rows)).

(** The rows left by [DELETE ... WHERE file = f] *)
Definition delete_file (f : string) (rows : list Row) : list Row :=
  filter (fun r => negb (String.eqb (row_file r) f)) rows.

(** The primary key of the ledger table: no two rows share a [file]. *)
Definition pk_ok (rows : list Row) : Prop := NoDup (map row_file rows).

Definition no_such_table (table : string) : error :=
  ErrNew ("no such table: " ++ table).

Definition unique_violation (table : string) : error :=
  ErrNew ("UNIQUE constraint failed: " ++ table ++ ".file").

(** [Row(&exists)] scans the single count column into a Go [bool]:
    database/sql converts the integers 0 and 1 and rejects every other one. *)
Definition scan_bool (n : Z) : error + bool :=
  if n =? 0 then inr false
  else if n =? 1 then inr true
  else inl (ErrNew ("sql: Scan error: couldn't convert " ++ Itoa n ++ " into type bool")).

Section Store.

(** What the migration units change: the application's schema and data.
    The units are given the transaction; they are modelled as acting on this
    component of it, the ledger tables being the runner's own. *)
Variable Data : Type.

(** Database contents: the tables of ledger shape by name ([None]: no such
    table) and the application data. *)
Record DB : Type := {
  tables : string -> option (list Row);
  data : Data
}.

Definition set_table (name : string) (rows : list Row) (d : DB) : DB :=
  {| tables := fun n => if String.eqb n name then Some rows else tables d n;
     data := data d |}.

Definition set_data (x : Data) (d : DB) : DB :=
  {| tables := tables d; data := x |}.

(** The effect of one statement on the contents, when the database carries it
    out: an error, or the count it reports (the selected row count, or the
    number of rows affected) and the new contents. *)
Definition run_stmt (s : stmt) (d : DB) : error + (Z * DB) :=
  match s with
  | CreateTableIfNotExists t =>
      match tables d t with
      | Some _ => inr (0, d)
      | None => inr (0, set_table t [] d)
      end
  | SelectCountWhereFile t f =>
      match tables d t with
      | None => inl (no_such_table t)
      | Some rows => inr (count_file f rows, d)
      end
  | InsertRow t f ts =>
      match tables d t with
      | None => inl (no_such_table t)
      | Some rows =>
          if 0 <? count_file f rows then inl (unique_violation t)
          else inr (1, set_table t (rows ++ [{| row_file := f; row_applied := ts |}]) d)
      end
  | DeleteWhereFile t f =>
      match tables d t with
      | None => inl (no_such_table t)
      | Some rows => inr (count_file f rows, set_table t (delete_file f rows) d)
      end
  end.

(** A connection (or an open transaction on it): the contents it sees and its
    environment.  [faults] schedules the outcome of the statements to come, one
    entry per statement: [Some e] makes the statement fail with [e] whatever
    the contents (lost connection, missing privilege, ...), [None] lets the
    database carry it out; past the end of the schedule nothing fails.
    [now] is the current reading of [time.Now().Unix()] and [later] the
    readings to come.  [log] lists the statements issued so far. *)
Record Conn : Type := {
  db : DB;
  faults : list (option error);
  now : Z;
  later : list Z;
  log : list stmt
}.

(** What becomes of a connection when a statement has been issued on it. *)
Definition issued (s : stmt) (d : DB) (c : Conn) : Conn :=
  {| db := d; faults := tl (faults c); now := now c; later := later c;
     log := log c ++ [s] |}.

(** [Execute()] of a built query, in Go's style: the reported count and the
    [error] ([None] for [nil]). *)
Definition Execute (s : stmt) (c : Conn) : Conn * (Z * option error) :=
  match faults c with
  | Some e :: _ => (issued s (db c) c, (0, Some e))
  | _ =>
      match run_stmt s (db c) with
      | inr (n, d) => (issued s d c, (n, None))
      | inl e => (issued s (db c) c, (0, Some e))
      end
  end.

(** [time.Now().Unix()] *)
Definition time_Now_Unix (c : Conn) : Conn * Z :=
  match later c with
  | [] => (c, now c)
  | t :: ts =>
      ({| db := db c; faults := faults c; now := t; later := ts; log := log c |}, now c)
  end.

(** The application data seen through a connection, and its replacement by
    what a unit made of it. *)
Definition conn_data (c : Conn) : Data := data (db c).

Definition with_data (x : Data) (c : Conn) : Conn :=
  {| db := set_data x (db c); faults := faults c; now := now c; later := later c;
     log := log c |}.

(** Modelled from the spec: [dbx.DB.Transactional] belongs to the query layer,
    which is not among the sources (an external collaborator that "exposes
    transactions").  The function body runs on the open transaction and sees
    its own uncommitted writes; a [nil] return commits them; an error or a
    panic rolls the contents back to what they were when the transaction
    began, and is handed on to the caller.  The environment is not part of
    what is rolled back. *)
Definition rollback (began tx : Conn) : Conn :=
  {| db := db began; faults := faults tx; now := now tx; later := later tx;
     log := log tx |}.

Definition Transactional (A : Type) (f : Conn -> Conn * result A) (c : Conn)
  : Conn * result A :=
  let (tx, r) := f c in
  match r with
  | Ok a => (tx, Ok a)
  | Err e => (rollback c tx, Err e)
  | Panic p => (rollback c tx, Panic p)
  end.

End Store.

(* ================================================================== *)
(** ** The runner *)

(** What [Run] prints, and what its prompts are answered.  [color.Red] and
    [color.Green] print one line each; [survey.AskOne] shows its message and
    stores the next answer, leaving the variable as it was when there is
    none. *)
Inductive line : Type :=
| Red (s : string)
| Green (s : string)
| Plain (s : string)
| Asked (message : string).

Record Term : Type := {
  answers : list bool;
  console : list line
}.

Definition print (l : line) (t : Term) : Term :=
  {| answers := answers t; console := console t ++ [l] |}.

Definition survey_AskOne (message : string) (confirm : bool) (t : Term) : Term * bool :=
  match answers t with
  | [] => (print (Asked message) t, confirm)
  | a :: rest => ({| answers := rest; console := console t ++ [Asked message] |}, a)
  end.

Section Runner.

Variable Data : Type.

(** Modelled from the spec: the [Migration] struct and the [MigrationsList]
    type are declared in a file of the package that is not among the sources.
    A unit is "a named, ordered pair of forward/backward operations" that
    "takes a transactional handle and returns success/failure"; the list is
    "an immutable, order-preserving registry" with sequential ([Items]) and
    positional ([Item]) access.  An operation may also panic, as any Go
    function may.  [Item] is Go slice indexing: [None] stands for the
    index-out-of-range panic. *)
Record Migration : Type := {
  file : string;
  up : Data -> result Data;
  down : Data -> result Data
}.

Definition MigrationsList : Type := list Migration.

Definition Items (l : MigrationsList) : list Migration := l.

Definition Item (l : MigrationsList) (i : nat) : option Migration := nth_error l i.

(** [type Runner struct]: the [db] handle is the connection every method is
    given explicitly. *)
Record Runner : Type := {
  migrationsList : MigrationsList;
  tableName : string
}.

(** [func (r *Runner) createMigrationsTable() error] *)
Definition createMigrationsTable (r : Runner) (c : Conn Data) : Conn Data * option error :=
  let '(c1, (_, err)) := Execute (CreateTableIfNotExists (tableName r)) c in
  (c1, err).

(** [func NewRunner(db *dbx.DB, migrationsList MigrationsList)], returning the runner or an error *)
Definition NewRunner (c : Conn Data) (l : MigrationsList) : Conn Data * result Runner :=
  let runner := {| migrationsList := l; tableName := migrationsTable |} in
  let (c1, err) := createMigrationsTable runner c in
  match err with
  | Some e => (c1, Err e)
  | None => (c1, Ok runner)
  end.

(** The query of [isMigrationApplied], up to [Row(&exists)]: the variable
    [exists] is written only when the row was read and scanned. *)
Definition Row_exists (table f : string) (exists0 : bool) (tx : Conn Data)
  : Conn Data * (bool * option error) :=
  let '(tx1, (n, err)) := Execute (SelectCountWhereFile table f) tx in
  match err with
  | Some e => (tx1, (exists0, Some e))
  | None =>
      match scan_bool n with
      | inr b => (tx1, (b, None))
      | inl e => (tx1, (exists0, Some e))
      end
  end.

(** [func (r *Runner) isMigrationApplied(tx dbx.Builder, file string) bool] *)
Definition isMigrationApplied (r : Runner) (tx : Conn Data) (f : string)
  : Conn Data * bool :=
  let '(tx1, (exists_, err)) := Row_exists (tableName r) f false tx in
  (tx1, match err with None => exists_ | Some _ => false end).

(** [func (r *Runner) saveAppliedMigration(tx dbx.Builder, file string) error] *)
Definition saveAppliedMigration (r : Runner) (tx : Conn Data) (f : string)
  : Conn Data * option error :=
  let (tx1, unix) := time_Now_Unix tx in
  let '(tx2, (_, err)) := Execute (InsertRow (tableName r) f unix) tx1 in
  (tx2, err).

(** [func (r *Runner) saveRevertedMigration(tx dbx.Builder, file string) error] *)
Definition saveRevertedMigration (r : Runner) (tx : Conn Data) (f : string)
  : Conn Data * option error :=
  let '(tx1, (_, err)) := Execute (DeleteWhereFile (tableName r) f) tx in
  (tx1, err).

(** The body of the transaction of [Up]: the [for ... range] loop over the
    items still to visit, with the captured slice [applied]. *)
Fixpoint up_loop (r : Runner) (items : list Migration) (applied : list string)
    (tx : Conn Data) : Conn Data * result (list string) :=
  match items with
  | [] => (tx, Ok applied)
  | m :: rest =>
      let (tx1, isApplied) := isMigrationApplied r tx (file m) in
      if isApplied then up_loop r rest applied tx1
      else
        match up m (conn_data tx1) with
        | Err e => (tx1, Err (Errorf_s_w "Failed to apply migration " (file m) e))
        | Panic p => (tx1, Panic p)
        | Ok d =>
            let (tx2, err) := saveAppliedMigration r (with_data d tx1) (file m) in
            match err with
            | Some e =>
                (tx2, Err (Errorf_s_w "Failed to save applied migration info for "
                             (file m) e))
            | None => up_loop r rest (applied ++ [file m]) tx2
            end
        end
  end.

(** [func (r *Runner) Up() ([]string, error)] *)
Definition Up (r : Runner) (c : Conn Data) : Conn Data * result (list string) :=
  Transactional (up_loop r (Items (migrationsList r)) []) c.

(** The body of the transaction of [Down]: the loop
    [for i := len(items) - 1; i >= 0; i--], entered with [k = i + 1] indices
    left, with the local [totalReverted] and the captured slice [applied].
    No statement of the loop assigns [totalReverted]. *)
Fixpoint down_loop (r : Runner) (toRevertCount totalReverted : Z) (k : nat)
    (applied : list string) (tx : Conn Data) : Conn Data * result (list string) :=
  match k with
  | O => (tx, Ok applied)
  | S i =>
      match Item (migrationsList r) i with
      | None => (tx, Panic "runtime error: index out of range")
      | Some m =>
          let (tx1, isApplied) := isMigrationApplied r tx (file m) in
          if negb isApplied then down_loop r toRevertCount totalReverted i applied tx1
          else if int_sub toRevertCount totalReverted <=? 0 then (tx1, Ok applied)
          else
            match down m (conn_data tx1) with
            | Err e => (tx1, Err (Errorf_s_w "Failed to revert migration " (file m) e))
            | Panic p => (tx1, Panic p)
            | Ok d =>
                let (tx2, err) := saveRevertedMigration r (with_data d tx1) (file m) in
                match err with
                | Some e =>
                    (tx2, Err (Errorf_s_w "Failed to save reverted migration info for "
                                 (file m) e))
                | None =>
                    down_loop r toRevertCount totalReverted i (applied ++ [file m]) tx2
                end
            end
      end
  end.

(** [func (r *Runner) Down(toRevertCount int) ([]string, error)] *)
Definition Down (r : Runner) (toRevertCount : Z) (c : Conn Data)
  : Conn Data * result (list string) :=
  Transactional
    (down_loop r toRevertCount 0 (List.length (Items (migrationsList r))) []) c.

End Runner.

Section RunCommand.

Variable Data : Type.

(** Library calls of [Run] that the runner only passes values through:
    [cast.ToInt], the [%q] verb of [fmt], and what the ["create"] command does
    once it has its file name (working directory, clock, file system and
    prompt: nothing of it touches the runner or the database). *)
Variable ToInt : string -> Z.
Variable Quote : string -> string.
Variable createFile : list string -> Term -> Term * result unit.

Definition newline : string := String (ascii_of_nat 10) EmptyString.

(** [for _, file := range files { color.Green(verb + " %s", file) }] *)
Definition print_each (verb : string) (files : list string) (t : Term) : Term :=
  fold_left (fun t' f => print (Green (verb ++ " " ++ f)) t') files t.

(** The value of [toRevertCount] when the ["down"] command calls [Down]. *)
Definition toRevertCount_of (r : Runner Data) (args : list string) : Z :=
  let toRevertCount := 1 in
  if (1 <? List.length args)%nat then
    let toRevertCount := ToInt (nth 1 args "") in
    if toRevertCount <? 0
    then Z.of_nat (List.length (Items (migrationsList r)))
    else toRevertCount
  else toRevertCount.

(** [func (r *Runner) Run(args ...string) error].  The messages handed to
    [color.Red] and [color.Green] are recorded as given. *)
Definition Run (r : Runner Data) (args : list string) (t : Term) (c : Conn Data)
  : (Term * Conn Data) * result unit :=
  let cmd := match args with [] => "up" | a :: _ => a end in
  if (cmd =? "up")%string then
    let (c1, res) := Up r c in
    match res with
    | Err e => ((print (Red (Error e)) t, c1), Err e)
    | Panic p => ((t, c1), Panic p)
    | Ok applied =>
        match applied with
        | [] => ((print (Green "No new migrations to apply.") t, c1), Ok tt)
        | _ => ((print_each "Applied" applied t, c1), Ok tt)
        end
    end
  else if (cmd =? "down")%string then
    let toRevertCount := toRevertCount_of r args in
    let (t1, confirm) :=
      survey_AskOne
        ("Do you really want to revert the last " ++ Itoa toRevertCount
           ++ " applied migration(s)?") false t in
    if negb confirm then
      ((print (Plain "The command has been cancelled") t1, c), Ok tt)
    else
      let (c1, res) := Down r toRevertCount c in
      match res with
      | Err e => ((print (Red (Error e)) t1, c1), Err e)
      | Panic p => ((t1, c1), Panic p)
      | Ok reverted =>
          match reverted with
          | [] => ((print (Green "No migrations to revert.") t1, c1), Ok tt)
          | _ => ((print_each "Reverted" reverted t1, c1), Ok tt)
          end
      end
  else if (cmd =? "create")%string then
    if (List.length args <? 2)%nat then
      ((t, c), Err (ErrNew "Missing migration file name"))
    else
      let (t1, res) := createFile args t in ((t1, c), res)
  else
    ((t, c), Err (ErrNew ("Unsupported command: " ++ Quote cmd ++ newline))).

End RunCommand.

(* ================================================================== *)
(** ** A concrete store and concrete units

    The application data is the list of schema objects that exist; the unit
    named [f] creates the object [f] and drops it again. *)

Module Sample.

Definition Schema : Type := list string.

Definition create_object (f : string) (d : Schema) : result Schema := Ok (d ++ [f]).

Definition drop_object (f : string) (d : Schema) : result Schema :=
  Ok (filter (fun x => negb (String.eqb x f)) d).

Definition unit_ (f : string) : Migration Schema :=
  {| file := f; up := create_object f; down := drop_object f |}.

(** A unit whose forward operation always fails. *)
Definition broken (f : string) : Migration Schema :=
  {| file := f; up := fun _ => Err (ErrNew "syntax error"); down := drop_object f |}.

(** An empty database on a connection on which nothing fails. *)
Definition empty_db : DB Schema := {| tables := fun _ => None; data := [] |}.

Definition fresh : Conn Schema :=
  {| db := empty_db; faults := []; now := 1700000000; later := []; log := [] |}.

(** The same database behind a connection with the given fault schedule. *)
Definition with_faults (fs : list (option error)) (c : Conn Schema) : Conn Schema :=
  {| db := db c; faults := fs; now := now c; later := later c; log := log c |}.

Definition abc : MigrationsList Schema := [unit_ "a"; unit_ "b"; unit_ "c"].

Definition five : MigrationsList Schema :=
  [unit_ "1_init"; unit_ "2_users"; unit_ "3_posts"; unit_ "4_tags"; unit_ "5_likes"].

(** The runner for a list, and the connection as its construction leaves it. *)
Definition runner_of (l : MigrationsList Schema) : Runner Schema :=
  {| migrationsList := l; tableName := migrationsTable |}.

Definition booted (l : MigrationsList Schema) : Conn Schema := fst (NewRunner fresh l).

(** The connection after a first [Up]. *)
Definition migrated (l : MigrationsList Schema) : Conn Schema :=
  fst (Up (runner_of l) (booted l)).

(** The ledger rows a connection sees. *)
Definition ledger (c : Conn Schema) : option (list Row) := tables (db c) migrationsTable.

Definition ledger_files (c : Conn Schema) : option (list string) :=
  option_map (map row_file) (ledger c).

(** The entries of the ledger once [five] has been applied. *)
Definition five_rows : list Row :=
  map (fun f => {| row_file := f; row_applied := 1700000000 |})
    ["1_init"; "2_users"; "3_posts"; "4_tags"; "5_likes"].

(** A list in which the unit "b" cannot be applied, and one that registers
    the identifier "a" twice. *)
Definition a_bad_c : MigrationsList Schema := [unit_ "a"; broken "b"; unit_ "c"].

Definition a_twice : MigrationsList Schema := [unit_ "a"; unit_ "a"].

Definition lost : error := ErrNew "connection lost".

(** Stand-ins for the library calls of [Run]: decimal reading that gives 0 for
    what is not a number, as [cast.ToInt] does; the other two play no part in
    the commands "up" and "down". *)
Definition to_int (s : string) : Z :=
  match NilZero.int_of_string s with
  | Some i => Z.of_int i
  | None => 0
  end.

Definition no_quote (s : string) : string := s.

Definition no_file (args : list string) (t : Term) : Term * result unit := (t, Ok tt).

(** A terminal whose user answers yes once. *)
Definition yes : Term := {| answers := [true]; console := [] |}.

End Sample.

(* ================================================================== *)
(** ** Vocabulary of the properties *)

Section Vocabulary.

Variable Data : Type.

(** The ledger table of a runner, as a connection sees it. *)
Definition ledger_of (r : Runner Data) (c : Conn Data) : option (list Row) :=
  tables (db c) (tableName r).

(** The number of ledger entries for an identifier (none without a table). *)
Definition entries (r : Runner Data) (c : Conn Data) (f : string) : Z :=
  match ledger_of r c with
  | Some rows => count_file f rows
  | None => 0
  end.

(** A unit counts as applied when the ledger holds its entry: exactly one,
    the primary key allowing no more and the scan of the count accepting no
    more. *)
Definition recorded (r : Runner Data) (c : Conn Data) (f : string) : bool :=
  entries r c f =? 1.

(** Running operations one after the other on the application data, stopping
    at the first that does not succeed. *)
Fixpoint run_ops (ops : list (Data -> result Data)) (d : Data) : result Data :=
  match ops with
  | [] => Ok d
  | op :: rest =>
      match op d with
      | Ok d' => run_ops rest d'
      | other => other
      end
  end.

(** The loop of [Down] by recursion over the items it visits, last one first:
    [down_loop] with [k] indices left is [down_items] on the first [k] items
    reversed (lemma [down_loop_items]). *)
Fixpoint down_items (r : Runner Data) (toRevertCount totalReverted : Z)
    (ms : list (Migration Data)) (applied : list string) (tx : Conn Data)
  : Conn Data * result (list string) :=
  match ms with
  | [] => (tx, Ok applied)
  | m :: rest =>
      let (tx1, isApplied) := isMigrationApplied r tx (file m) in
      if negb isApplied then down_items r toRevertCount totalReverted rest applied tx1
      else if int_sub toRevertCount totalReverted <=? 0 then (tx1, Ok applied)
      else
        match down m (conn_data tx1) with
        | Err e => (tx1, Err (Errorf_s_w "Failed to revert migration " (file m) e))
        | Panic p => (tx1, Panic p)
        | Ok d =>
            let (tx2, err) := saveRevertedMigration r (with_data d tx1) (file m) in
            match err with
            | Some e =>
                (tx2, Err (Errorf_s_w "Failed to save reverted migration info for "
                             (file m) e))
            | None =>
                down_items r toRevertCount totalReverted rest (applied ++ [file m]) tx2
            end
        end
  end.

(** What the loop of [Up] does to the ledger, whatever fails: other tables
    are left alone, and the runner's table only grows, by one entry for each
    identifier appended to [applied]; those identifiers had no entry and are
    pairwise distinct. *)
Definition grows (r : Runner Data) (l : list (Migration Data)) (a : list string)
    (tx tx' : Conn Data) (res : result (list string)) : Prop :=
  (forall n, n <> tableName r -> tables (db tx') n = tables (db tx) n) /\
  match ledger_of r tx with
  | None => ledger_of r tx' = None /\ (forall out, res = Ok out -> out = a)
  | Some rows =>
      exists new,
        ledger_of r tx' = Some (rows ++ new) /\
        NoDup (map row_file new) /\
        (forall f, In f (map row_file new) ->
                   count_file f rows = 0 /\ In f (map (@file Data) l)) /\
        (forall out, res = Ok out -> out = a ++ map row_file new)
  end.

(** The units of a list that have their entry among the rows. *)
Definition on_ledger (rows : list Row) (m : Migration Data) : bool :=
  count_file (file m) rows =? 1.

(** The rows whose identifier is none of [fs]. *)
Definition remaining (fs : list string) (rows : list Row) : list Row :=
  filter (fun x => negb (existsb (String.eqb (row_file x)) fs)) rows.

(** Where the errors of the two loops come from: a unit's operation, or the
    write to the ledger that follows it. *)
Definition up_failure (r : Runner Data) (e : error) : Prop :=
  exists m cause,
    In m (migrationsList r) /\
    ((e = Errorf_s_w "Failed to apply migration " (file m) cause /\
      exists d, up m d = Err cause) \/
     (e = Errorf_s_w "Failed to save applied migration info for " (file m) cause /\
      exists tx, snd (saveAppliedMigration r tx (file m)) = Some cause)).

Definition down_failure (r : Runner Data) (e : error) : Prop :=
  exists m cause,
    In m (migrationsList r) /\
    ((e = Errorf_s_w "Failed to revert migration " (file m) cause /\
      exists d, down m d = Err cause) \/
     (e = Errorf_s_w "Failed to save reverted migration info for " (file m) cause /\
      exists tx, snd (saveRevertedMigration r tx (file m)) = Some cause)).

(** What [Run] returns for what [Up] or [Down] returned. *)
Definition reported (A : Type) (res : result A) : result unit :=
  match res with
  | Ok _ => Ok tt
  | Err e => Err e
  | Panic p => Panic p
  end.

End Vocabulary.

(* ================================================================== *)
(** ** Further vocabulary *)

(** [out] lists some of the elements of [l], in the order they have in [l]. *)
Inductive subseq (A : Type) : list A -> list A -> Prop :=
| subseq_nil : subseq [] []
| subseq_skip (x : A) (out l : list A) : subseq out l -> subseq out (x :: l)
| subseq_take (x : A) (out l : list A) : subseq out l -> subseq (x :: out) (x :: l).

(** A call that did not end with a value. *)
Definition failed (A : Type) (res : result A) : Prop := forall a, res <> Ok a.

(** The lines [Run] prints for the outcome of a batch: the error in red, or
    one green line for each migration, in the order of the list, or the
    green note that there was none; nothing for a panic. *)
Definition report_lines (verb none : string) (res : result (list string)) : list line :=
  match res with
  | Err e => [Red (Error e)]
  | Panic _ => []
  | Ok [] => [Green none]
  | Ok files => map (fun f => Green (verb ++ " " ++ f)) files
  end.

Section StatementKinds.

Variable Data : Type.

(** The statements of [Up]: existence queries and inserts on the runner's
    table; those of [Down]: existence queries and deletes on it. *)
Definition up_stmt (r : Runner Data) (s : stmt) : Prop :=
  match s with
  | SelectCountWhereFile t _ => t = tableName r
  | InsertRow t _ _ => t = tableName r
  | _ => False
  end.

Definition down_stmt (r : Runner Data) (s : stmt) : Prop :=
  match s with
  | SelectCountWhereFile t _ => t = tableName r
  | DeleteWhereFile t _ => t = tableName r
  | _ => False
  end.

(** What the loop of [Down] does to the ledger, whatever fails: other tables
    are left alone, and the runner's table only loses the entries of the
    identifiers appended to [applied]; each of those had its entry and they
    are pairwise distinct. *)
Definition shrinks (r : Runner Data) (ms : list (Migration Data)) (a : list string)
    (tx tx' : Conn Data) (res : result (list string)) : Prop :=
  (forall n, n <> tableName r -> tables (db tx') n = tables (db tx) n) /\
  match ledger_of r tx with
  | None => ledger_of r tx' = None /\ (forall out, res = Ok out -> out = a)
  | Some rows =>
      exists fs,
        ledger_of r tx' = Some (remaining fs rows) /\
        NoDup fs /\
        (forall f, In f fs -> count_file f rows = 1 /\ In f (map (@file Data) ms)) /\
        (forall out, res = Ok out -> out = a ++ fs)
  end.

End StatementKinds.

(** More concrete cases: a unit whose backward operation panics, and the
    ledger rows of [Sample.abc] once applied. *)
Module Cases.

Definition panicky (f : string) : Migration Sample.Schema :=
  {| file := f; up := Sample.create_object f; down := fun _ => Panic "boom" |}.

Definition a_then_panicky : MigrationsList Sample.Schema :=
  [Sample.unit_ "a"; panicky "b"].

Definition abc_rows : list Row :=
  map (fun f => {| row_file := f; row_applied := 1700000000 |}) ["a"; "b"; "c"].

(** A terminal whose user answers no. *)
Definition no : Term := {| answers := [false]; console := [] |}.

(** The connection left by the construction of the runner of
    [Sample.a_twice], on which the third statement to come fails: in [Up],
    the existence query of the second entry. *)
Definition third_fails : Conn Sample.Schema :=
  Sample.with_faults [None; None; Some Sample.lost] (Sample.booted Sample.a_twice).

End Cases.

(* ================================================================== *)
(** ** Statements and the ledger helpers *)

Section Helpers.

Variable Data : Type.
Implicit Types (r : Runner Data) (c tx : Conn Data) (f : string) (rows : list Row).

Lemma int_sub_0 (n : Z) : is_int n -> int_sub n 0 = n.
Proof.
  unfold is_int, int_min, int_max, int_sub, int_wrap. intros H.
  rewrite Z.sub_0_r, Z.mod_small; lia.
Qed.

Lemma count_file_nonneg f rows : 0 <= count_file f rows.
Proof. unfold count_file. lia. Qed.

Lemma count_file_app f rows rows' :
  count_file f (rows ++ rows') = count_file f rows + count_file f rows'.
Proof. unfold count_file. rewrite filter_app, length_app. lia. Qed.

Lemma count_file_one f g ts :
  count_file f [{| row_file := g; row_applied := ts |}] = if String.eqb g f then 1 else 0.
Proof. unfold count_file. simpl. destruct (String.eqb g f); reflexivity. Qed.

Lemma count_file_0_notin f rows :
  count_file f rows = 0 <-> ~ In f (map row_file rows).
Proof.
  unfold count_file. induction rows as [|x rows IH]; simpl.
  - tauto.
  - destruct (String.eqb_spec (row_file x) f) as [E|E]; simpl.
    + split; [lia | intros H; exfalso; apply H; left; exact E].
    + rewrite IH. split; [intros H [H'|H']; tauto | tauto].
Qed.

Lemma pk_ok_count f rows : pk_ok rows -> count_file f rows <= 1.
Proof.
  unfold pk_ok. induction rows as [|x rows IH]; simpl; intros H.
  - unfold count_file. simpl. lia.
  - inversion H as [|? ? Hx Hr]; subst.
    change (x :: rows) with ([x] ++ rows). rewrite count_file_app.
    destruct x as [g ts]. rewrite count_file_one. simpl in Hx.
    destruct (String.eqb_spec g f) as [E|E].
    + subst g. apply count_file_0_notin in Hx. lia.
    + specialize (IH Hr). lia.
Qed.

Lemma count_file_delete_same f rows : count_file f (delete_file f rows) = 0.
Proof.
  apply count_file_0_notin. unfold delete_file. intros H.
  apply in_map_iff in H. destruct H as [x [E H]]. apply filter_In in H.
  destruct H as [_ H]. rewrite E, String.eqb_refl in H. discriminate.
Qed.

Lemma count_file_delete_other f g rows :
  f <> g -> count_file f (delete_file g rows) = count_file f rows.
Proof.
  intros N. unfold count_file, delete_file. induction rows as [|x rows IH]; simpl.
  - reflexivity.
  - destruct (String.eqb_spec (row_file x) g) as [E|E]; simpl.
    + destruct (String.eqb_spec (row_file x) f) as [E'|E']; [congruence | exact IH].
    + destruct (String.eqb (row_file x) f); simpl; lia.
Qed.

End Helpers.

Section LedgerHelpers.

Variable Data : Type.
Implicit Types (r : Runner Data) (c tx : Conn Data) (f : string) (rows : list Row).

Lemma time_Now_Unix_env tx :
  db (fst (time_Now_Unix tx)) = db tx /\ faults (fst (time_Now_Unix tx)) = faults tx
  /\ log (fst (time_Now_Unix tx)) = log tx.
Proof. unfold time_Now_Unix. destruct (later tx); simpl; auto. Qed.

(** The existence query leaves the contents alone, whatever its outcome. *)
Lemma isMigrationApplied_conn r tx f :
  fst (isMigrationApplied r tx f)
  = issued (SelectCountWhereFile (tableName r) f) (db tx) tx.
Proof.
  unfold isMigrationApplied, Row_exists, Execute. simpl.
  destruct (faults tx) as [|[e|] fs]; simpl;
    destruct (tables (db tx) (tableName r)); simpl; try reflexivity;
    destruct (scan_bool _); reflexivity.
Qed.

Lemma isMigrationApplied_true r tx f :
  snd (isMigrationApplied r tx f) = true -> recorded r tx f = true.
Proof.
  unfold isMigrationApplied, Row_exists, Execute, recorded, entries, ledger_of. simpl.
  destruct (faults tx) as [|[e|] fs]; simpl;
    destruct (tables (db tx) (tableName r)) as [rows|]; simpl; try discriminate;
    unfold scan_bool;
    destruct (Z.eqb_spec (count_file f rows) 0) as [E|E]; simpl; try discriminate;
    destruct (Z.eqb_spec (count_file f rows) 1) as [E'|E']; simpl; auto; discriminate.
Qed.

Lemma isMigrationApplied_answer r tx f :
  hd None (faults tx) = None -> snd (isMigrationApplied r tx f) = recorded r tx f.
Proof.
  unfold isMigrationApplied, Row_exists, Execute, recorded, entries, ledger_of. simpl.
  destruct (faults tx) as [|[e|] fs]; simpl; try discriminate; intros _;
    destruct (tables (db tx) (tableName r)) as [rows|]; simpl; try reflexivity;
    unfold scan_bool;
    destruct (Z.eqb_spec (count_file f rows) 0) as [E|E]; simpl;
    try (rewrite E; reflexivity);
    destruct (Z.eqb_spec (count_file f rows) 1) as [E'|E']; simpl; reflexivity.
Qed.

(** The insert either fails and writes nothing, or finds the table without
    an entry for the identifier and appends one. *)
Lemma saveAppliedMigration_cases r tx f :
  let (tx2, err) := saveAppliedMigration r tx f in
  faults tx2 = tl (faults tx) /\
  match err with
  | Some _ => db tx2 = db tx
  | None =>
      hd None (faults tx) = None /\
      exists rows ts,
        ledger_of r tx = Some rows /\ count_file f rows = 0 /\
        db tx2 = set_table (tableName r)
                   (rows ++ [{| row_file := f; row_applied := ts |}]) (db tx)
  end.
Proof.
  unfold saveAppliedMigration, Execute, ledger_of, issued.
  destruct (time_Now_Unix_env tx) as [Hd [Hf _]].
  destruct (time_Now_Unix tx) as [tx1 unix]. simpl in Hd, Hf.
  rewrite Hd, Hf. unfold run_stmt.
  destruct (faults tx) as [|[e|] fs]; simpl.
  2: split; reflexivity.
  all: destruct (tables (db tx) (tableName r)) as [rows|]; simpl.
  all: try (split; reflexivity).
  all: destruct (Z.ltb_spec 0 (count_file f rows)); simpl.
  all: try (split; reflexivity).
  all: split; [reflexivity|]; split; [reflexivity|].
  all: exists rows, unix; pose proof (count_file_nonneg f rows).
  all: split; [reflexivity|]; split; [lia | reflexivity].
Qed.

(** The delete either fails and writes nothing, or removes the entry. *)
Lemma saveRevertedMigration_cases r tx f :
  let (tx2, err) := saveRevertedMigration r tx f in
  faults tx2 = tl (faults tx) /\
  match err with
  | Some _ => db tx2 = db tx
  | None =>
      hd None (faults tx) = None /\
      exists rows,
        ledger_of r tx = Some rows /\
        db tx2 = set_table (tableName r) (delete_file f rows) (db tx)
  end.
Proof.
  unfold saveRevertedMigration, Execute, ledger_of, run_stmt, issued.
  destruct (faults tx) as [|[e|] fs]; simpl.
  2: split; reflexivity.
  all: destruct (tables (db tx) (tableName r)) as [rows|]; simpl.
  all: try (split; reflexivity).
  all: split; [reflexivity|]; split; [reflexivity|].
  all: exists rows; split; reflexivity.
Qed.

(** On a connection where the next statement is not made to fail, the writes
    succeed whenever the contents allow them. *)
Lemma saveAppliedMigration_succeeds r tx f rows :
  hd None (faults tx) = None -> ledger_of r tx = Some rows -> count_file f rows = 0 ->
  snd (saveAppliedMigration r tx f) = None.
Proof.
  unfold saveAppliedMigration, Execute, ledger_of. intros Hh Ht Hc.
  destruct (time_Now_Unix_env tx) as [Hd [Hf _]].
  destruct (time_Now_Unix tx) as [tx1 unix]. simpl in Hd, Hf.
  rewrite Hd, Hf. unfold run_stmt. rewrite Ht, Hc.
  destruct (faults tx) as [|[e|] fs]; simpl in *; try discriminate; reflexivity.
Qed.

Lemma saveRevertedMigration_succeeds r tx f rows :
  hd None (faults tx) = None -> ledger_of r tx = Some rows ->
  snd (saveRevertedMigration r tx f) = None.
Proof.
  unfold saveRevertedMigration, Execute, ledger_of, run_stmt. intros Hh Ht.
  rewrite Ht.
  destruct (faults tx) as [|[e|] fs]; simpl in *; try discriminate; reflexivity.
Qed.

Lemma set_table_same (name : string) rows (d : DB Data) :
  tables (set_table name rows d) name = Some rows.
Proof. simpl. rewrite String.eqb_refl. reflexivity. Qed.

Lemma set_table_other (name n : string) rows (d : DB Data) :
  n <> name -> tables (set_table name rows d) n = tables d n.
Proof. intros N. simpl. destruct (String.eqb_spec n name); [contradiction | reflexivity]. Qed.

End LedgerHelpers.

Section UpLoop.

Variable Data : Type.
Implicit Types (r : Runner Data) (c tx : Conn Data) (f : string) (rows : list Row)
  (l : list (Migration Data)) (m : Migration Data).

Lemma isMigrationApplied_db r tx f tx1 b :
  isMigrationApplied r tx f = (tx1, b) ->
  db tx1 = db tx /\ faults tx1 = tl (faults tx).
Proof.
  intros H. pose proof (isMigrationApplied_conn r tx f) as E.
  rewrite H in E. simpl in E. subst tx1. split; reflexivity.
Qed.

(** The loop of [Up] run on a list that is cut in two. *)
Lemma up_loop_app r l1 l2 : forall a tx,
  up_loop r (l1 ++ l2) a tx =
  match up_loop r l1 a tx with
  | (tx1, Ok done) => up_loop r l2 done tx1
  | other => other
  end.
Proof.
  induction l1 as [|m l1 IH]; intros a tx; simpl.
  - reflexivity.
  - destruct (isMigrationApplied r tx (file m)) as [tx1 [|]].
    + apply IH.
    + destruct (up m (conn_data tx1)) as [d|e|p]; try reflexivity.
      destruct (saveAppliedMigration r (with_data d tx1) (file m)) as [tx2 [e|]].
      * reflexivity.
      * apply IH.
Qed.

Lemma grows_nothing r l a tx tx' res :
  tables (db tx') = tables (db tx) -> (forall out, res = Ok out -> out = a) ->
  grows r l a tx tx' res.
Proof.
  intros Hd Hr. unfold grows, ledger_of. rewrite Hd. split; [reflexivity|].
  destruct (tables (db tx) (tableName r)) as [rows|].
  - exists []. rewrite app_nil_r. split; [reflexivity|]. split; [constructor|].
    split; [intros f []|]. intros out Ho. rewrite app_nil_r. auto.
  - split; [reflexivity | exact Hr].
Qed.

Lemma up_loop_ledger r l : forall a tx tx' res,
  up_loop r l a tx = (tx', res) -> grows r l a tx tx' res.
Proof.
  induction l as [|m l IH]; intros a tx tx' res H; simpl in H.
  - inversion H; subst. apply grows_nothing; [reflexivity|].
    intros out Ho. inversion Ho. reflexivity.
  - destruct (isMigrationApplied r tx (file m)) as [tx1 b] eqn:Eq.
    apply isMigrationApplied_db in Eq. destruct Eq as [Hd1 _].
    assert (Hl1 : ledger_of r tx1 = ledger_of r tx)
      by (unfold ledger_of; rewrite Hd1; reflexivity).
    destruct b.
    + specialize (IH _ _ _ _ H). unfold grows in *.
      rewrite Hl1, Hd1 in IH. destruct IH as [IH1 IH2].
      split; [exact IH1|].
      destruct (ledger_of r tx) as [rows|]; [|exact IH2].
      destruct IH2 as [new [A [B [C D]]]]. exists new.
      split; [exact A|]. split; [exact B|]. split; [|exact D].
      intros f Hf. destruct (C f Hf). split; [assumption | right; assumption].
    + destruct (up m (conn_data tx1)) as [d|e|p].
      2,3: inversion H; subst; apply grows_nothing;
        [rewrite Hd1; reflexivity | discriminate].
      pose proof (saveAppliedMigration_cases r (with_data d tx1) (file m)) as S.
      destruct (saveAppliedMigration r (with_data d tx1) (file m)) as [tx2 [e|]].
      * inversion H; subst. destruct S as [_ S]. apply grows_nothing;
          [rewrite S; simpl; rewrite Hd1; reflexivity | discriminate].
      * destruct S as [_ [_ [rows [ts [S1 [S2 S3]]]]]].
        specialize (IH _ _ _ _ H). unfold grows in *.
        assert (Hl2 : ledger_of r tx2
                      = Some (rows ++ [{| row_file := file m; row_applied := ts |}])).
        { unfold ledger_of. rewrite S3. apply set_table_same. }
        assert (Hl : ledger_of r tx = Some rows).
        { rewrite <- Hl1. exact S1. }
        rewrite Hl2 in IH. rewrite Hl. destruct IH as [IH1 [new [A [B [C D]]]]].
        split.
        { intros n Hn. rewrite (IH1 n Hn), S3, set_table_other by exact Hn.
          simpl. rewrite Hd1. reflexivity. }
        exists ({| row_file := file m; row_applied := ts |} :: new).
        split; [rewrite A, <- app_assoc; reflexivity|].
        split.
        { simpl. constructor; [|exact B]. intros Hin. destruct (C _ Hin) as [Hc _].
          rewrite count_file_app, count_file_one, String.eqb_refl in Hc.
          pose proof (count_file_nonneg (file m) rows). lia. }
        split.
        { simpl. intros f [Hf|Hf].
          - subst f. split; [exact S2 | left; reflexivity].
          - destruct (C _ Hf) as [Hc Hi]. split; [|right; exact Hi].
            rewrite count_file_app in Hc.
            pose proof (count_file_nonneg f rows).
            pose proof (count_file_nonneg f [{| row_file := file m; row_applied := ts |}]).
            lia. }
        intros out Ho. rewrite (D out Ho), <- app_assoc. reflexivity.
Qed.

(** Entries are never lost by the loop of [Up]. *)
Lemma up_loop_keeps_recorded r l a tx tx' res f :
  up_loop r l a tx = (tx', res) -> recorded r tx f = true -> recorded r tx' f = true.
Proof.
  intros H. apply up_loop_ledger in H. destruct H as [_ H].
  unfold recorded, entries. destruct (ledger_of r tx) as [rows|].
  - destruct H as [new [A [_ [C _]]]]. rewrite A, count_file_app.
    intros Hr. apply Z.eqb_eq in Hr. apply Z.eqb_eq.
    destruct (Z.eq_dec (count_file f new) 0) as [E|E]; [lia|].
    exfalso. rewrite count_file_0_notin in E.
    assert (Hin : In f (map row_file new)).
    { destruct (in_dec string_dec f (map row_file new)); tauto. }
    destruct (C f Hin). lia.
  - discriminate.
Qed.

(** When [Up]'s loop ends normally, every unit of the list has its entry. *)
Lemma up_loop_all_recorded r l : forall a tx tx' out,
  up_loop r l a tx = (tx', Ok out) ->
  forall m, In m l -> recorded r tx' (file m) = true.
Proof.
  induction l as [|m l IH]; intros a tx tx' out H m' Hin; [destruct Hin|].
  simpl in H.
  destruct (isMigrationApplied r tx (file m)) as [tx1 b] eqn:Eq.
  pose proof (isMigrationApplied_true r tx (file m)) as Ht. rewrite Eq in Ht. simpl in Ht.
  apply isMigrationApplied_db in Eq. destruct Eq as [Hd1 _].
  destruct b.
  - destruct Hin as [<-|Hin]; [|eapply IH; eauto].
    eapply up_loop_keeps_recorded; [exact H|].
    specialize (Ht eq_refl). unfold recorded, entries, ledger_of in *.
    rewrite Hd1. exact Ht.
  - destruct (up m (conn_data tx1)) as [d|e|p]; try discriminate.
    pose proof (saveAppliedMigration_cases r (with_data d tx1) (file m)) as S.
    destruct (saveAppliedMigration r (with_data d tx1) (file m)) as [tx2 [e|]];
      try discriminate.
    destruct Hin as [<-|Hin]; [|eapply IH; eauto].
    eapply up_loop_keeps_recorded; [exact H|].
    destruct S as [_ [_ [rows [ts [S1 [S2 S3]]]]]].
    unfold recorded, entries, ledger_of. rewrite S3, set_table_same.
    rewrite count_file_app, count_file_one, String.eqb_refl, S2. reflexivity.
Qed.

(** With every unit recorded and no statement failing, the loop of [Up]
    passes over the whole list without touching the contents. *)
Lemma up_loop_all_skipped r l : forall a tx,
  faults tx = [] ->
  (forall m, In m l -> recorded r tx (file m) = true) ->
  exists tx', up_loop r l a tx = (tx', Ok a) /\ db tx' = db tx /\ faults tx' = [].
Proof.
  induction l as [|m l IH]; intros a tx Hf Hall; simpl.
  - exists tx. auto.
  - destruct (isMigrationApplied r tx (file m)) as [tx1 b] eqn:Eq.
    pose proof (isMigrationApplied_answer r tx (file m)) as Ha.
    rewrite Eq, Hf in Ha. simpl in Ha. specialize (Ha eq_refl).
    rewrite (Hall m (or_introl eq_refl)) in Ha. subst b.
    apply isMigrationApplied_db in Eq. destruct Eq as [Hd1 Hf1].
    rewrite Hf in Hf1. simpl in Hf1.
    destruct (IH a tx1 Hf1) as [tx' [A [B C]]].
    + intros m' Hin. unfold recorded, entries, ledger_of. rewrite Hd1.
      apply Hall. right. exact Hin.
    + exists tx'. rewrite A, B, Hd1. auto.
Qed.


End UpLoop.


Section DownLoop.

Variable Data : Type.
Implicit Types (r : Runner Data) (c tx : Conn Data) (f : string) (rows : list Row)
  (l ms : list (Migration Data)) (m : Migration Data).

(** The index never leaves the list: the loop of [Down] is the structural
    loop over the items in reverse. *)
Lemma down_loop_items r n tot : forall k a tx,
  (k <= List.length (migrationsList r))%nat ->
  down_loop r n tot k a tx
  = down_items r n tot (rev (firstn k (migrationsList r))) a tx.
Proof.
  induction k as [|i IH]; intros a tx Hk; [reflexivity|].
  assert (Hi : (i < List.length (migrationsList r))%nat) by lia.
  destruct (nth_error (migrationsList r) i) as [m|] eqn:En.
  2: { apply nth_error_None in En. lia. }
  assert (Hf : firstn (S i) (migrationsList r) = firstn i (migrationsList r) ++ [m]).
  { clear IH Hk Hi. revert i En. induction (migrationsList r) as [|x xs IHx]; intros i En.
    - destruct i; discriminate.
    - destruct i as [|i]; simpl in *.
      + inversion En. reflexivity.
      + f_equal. apply IHx. exact En. }
  rewrite Hf, rev_app_distr. simpl. unfold Item. rewrite En.
  destruct (isMigrationApplied r tx (file m)) as [tx1 [|]]; simpl.
  - destruct (int_sub n tot <=? 0); [reflexivity|].
    destruct (down m (conn_data tx1)) as [d|e|p]; try reflexivity.
    destruct (saveRevertedMigration r (with_data d tx1) (file m)) as [tx2 [e|]];
      [reflexivity|]. apply IH. lia.
  - apply IH. lia.
Qed.

Lemma Down_items r n c :
  Down r n c = Transactional (down_items r n 0 (rev (migrationsList r)) []) c.
Proof.
  unfold Down, Transactional, Items.
  rewrite down_loop_items, firstn_all by lia. reflexivity.
Qed.

(** With a count that is not positive the loop stops at the first applied
    unit it meets: nothing is reverted and nothing is written. *)
Lemma down_items_nonpositive r n ms : forall a tx,
  is_int n -> n <= 0 ->
  exists tx', down_items r n 0 ms a tx = (tx', Ok a) /\ db tx' = db tx.
Proof.
  induction ms as [|m ms IH]; intros a tx Hi Hn; simpl.
  - exists tx. auto.
  - destruct (isMigrationApplied r tx (file m)) as [tx1 b] eqn:Eq.
    apply isMigrationApplied_db in Eq. destruct Eq as [Hd1 _].
    destruct b; simpl.
    + rewrite int_sub_0 by exact Hi.
      destruct (Z.leb_spec n 0); [|lia]. exists tx1. auto.
    + destruct (IH a tx1 Hi Hn) as [tx' [A B]]. exists tx'. rewrite A, B. auto.
Qed.

(** Every positive count does the same: the count is only ever compared, less
    the constant [totalReverted = 0], with zero. *)
Lemma down_items_positive_agree r n n' ms : forall a tx,
  is_int n -> is_int n' -> 0 < n -> 0 < n' ->
  down_items r n 0 ms a tx = down_items r n' 0 ms a tx.
Proof.
  induction ms as [|m ms IH]; intros a tx Hi Hi' Hn Hn'; simpl; [reflexivity|].
  destruct (isMigrationApplied r tx (file m)) as [tx1 [|]]; simpl.
  - rewrite !int_sub_0 by assumption.
    destruct (Z.leb_spec n 0); [lia|]. destruct (Z.leb_spec n' 0); [lia|].
    destruct (down m (conn_data tx1)) as [d|e|p]; try reflexivity.
    destruct (saveRevertedMigration r (with_data d tx1) (file m)) as [tx2 [e|]];
      [reflexivity|]. apply IH; assumption.
  - apply IH; assumption.
Qed.


Lemma remaining_nil rows : remaining [] rows = rows.
Proof.
  unfold remaining. induction rows as [|x rows IH]; simpl; [reflexivity|].
  f_equal. exact IH.
Qed.

Lemma remaining_delete f fs rows :
  remaining fs (delete_file f rows) = remaining (f :: fs) rows.
Proof.
  unfold remaining, delete_file. induction rows as [|x rows IH]; simpl; [reflexivity|].
  destruct (String.eqb (row_file x) f); simpl; rewrite IH; reflexivity.
Qed.

Lemma count_file_remaining f fs : forall rows,
  count_file f (remaining fs rows)
  = if existsb (String.eqb f) fs then 0 else count_file f rows.
Proof.
  induction fs as [|g fs IH]; intros rows.
  - rewrite remaining_nil. reflexivity.
  - rewrite <- remaining_delete, IH. simpl.
    destruct (String.eqb_spec f g) as [E|E]; simpl.
    + subst g. rewrite count_file_delete_same. destruct (existsb _ fs); reflexivity.
    + rewrite count_file_delete_other by exact E. reflexivity.
Qed.

(** With a positive count and no statement failing, the loop of [Down]
    reverts every applied unit it visits, provided their backward operations
    go through one after the other. *)
Lemma down_items_reverts r n ms : forall a tx rows d',
  is_int n -> 0 < n ->
  faults tx = [] ->
  ledger_of r tx = Some rows ->
  NoDup (map (@file Data) ms) ->
  run_ops (map (@down Data) (filter (on_ledger rows) ms)) (conn_data tx) = Ok d' ->
  exists tx',
    down_items r n 0 ms a tx
    = (tx', Ok (a ++ map (@file Data) (filter (on_ledger rows) ms))) /\
    ledger_of r tx'
    = Some (remaining (map (@file Data) (filter (on_ledger rows) ms)) rows) /\
    conn_data tx' = d' /\ faults tx' = [] /\
    (forall t, t <> tableName r -> tables (db tx') t = tables (db tx) t).
Proof.
  induction ms as [|m ms IH]; intros a tx rows d' Hi Hn Hf Hl Hnd Hrun;
    cbn [map filter down_items run_ops] in *.
  - exists tx. rewrite app_nil_r, remaining_nil. inversion Hrun. auto.
  - inversion Hnd as [|? ? Hm Hnd']; subst.
    destruct (isMigrationApplied r tx (file m)) as [tx1 b] eqn:Eq.
    pose proof (isMigrationApplied_answer r tx (file m)) as Ha.
    rewrite Eq, Hf in Ha. simpl in Ha. specialize (Ha eq_refl).
    apply isMigrationApplied_db in Eq. destruct Eq as [Hd1 Hf1].
    rewrite Hf in Hf1. simpl in Hf1.
    assert (Hb : b = on_ledger rows m).
    { rewrite Ha. unfold recorded, entries, on_ledger. rewrite Hl. reflexivity. }
    assert (Hl1 : ledger_of r tx1 = Some rows) by (unfold ledger_of; rewrite Hd1; exact Hl).
    assert (Hc1 : conn_data tx1 = conn_data tx) by (unfold conn_data; rewrite Hd1; reflexivity).
    rewrite <- Hb in *. destruct b; simpl in *.
    + rewrite int_sub_0 by exact Hi. destruct (Z.leb_spec n 0); [lia|].
      rewrite Hc1. destruct (down m (conn_data tx)) as [d|e|p]; try discriminate.
      pose proof (saveRevertedMigration_cases r (with_data d tx1) (file m)) as S.
      pose proof (saveRevertedMigration_succeeds r (with_data d tx1) (file m) (rows:=rows)) as S'.
      destruct (saveRevertedMigration r (with_data d tx1) (file m)) as [tx2 err].
      simpl in S'. rewrite Hf1 in S'. specialize (S' eq_refl Hl1). subst err.
      destruct S as [Sf [_ [rows' [S1 S2]]]].
      change (ledger_of r (with_data d tx1)) with (ledger_of r tx1) in S1.
      rewrite Hl1 in S1. inversion S1; subst rows'. clear S1.
      simpl in Sf. rewrite Hf1 in Sf. simpl in Sf.
      assert (Hfil : filter (on_ledger (delete_file (file m) rows)) ms
                     = filter (on_ledger rows) ms).
      { apply filter_ext_in. intros m' Hin. unfold on_ledger.
        rewrite count_file_delete_other; [reflexivity|].
        intros E. apply Hm. rewrite <- E. apply in_map. exact Hin. }
      destruct (IH (a ++ [file m]) tx2 (delete_file (file m) rows) d' Hi Hn Sf)
        as [tx' [A [B [C [D E]]]]].
      * unfold ledger_of. rewrite S2. apply set_table_same.
      * exact Hnd'.
      * rewrite Hfil. unfold conn_data. rewrite S2. simpl. exact Hrun.
      * exists tx'. rewrite Hfil in A, B. rewrite A, B, remaining_delete, <- app_assoc.
        split; [reflexivity|]. split; [reflexivity|]. split; [exact C|].
        split; [exact D|]. intros t Ht. rewrite (E t Ht), S2, set_table_other by exact Ht.
        simpl. rewrite Hd1. reflexivity.
    + destruct (IH a tx1 rows d' Hi Hn Hf1 Hl1 Hnd') as [tx' [A [B [C [D E]]]]].
      * rewrite Hc1. exact Hrun.
      * exists tx'. rewrite A, B. repeat (split; [auto; fail|]).
        intros t Ht. rewrite (E t Ht), Hd1. reflexivity.
Qed.

End DownLoop.

Section Batches.

Variable Data : Type.
Implicit Types (r : Runner Data) (c tx : Conn Data) (f : string) (rows : list Row)
  (l ms : list (Migration Data)) (m : Migration Data).

(** With no statement failing and no unit of the list recorded yet, the loop
    of [Up] applies the whole list in order, provided the forward operations
    go through one after the other. *)
Lemma up_loop_applies r l : forall a tx rows d1,
  faults tx = [] ->
  ledger_of r tx = Some rows ->
  NoDup (map (@file Data) l) ->
  (forall m, In m l -> count_file (file m) rows = 0) ->
  run_ops (map (@up Data) l) (conn_data tx) = Ok d1 ->
  exists tx' new,
    up_loop r l a tx = (tx', Ok (a ++ map (@file Data) l)) /\
    ledger_of r tx' = Some (rows ++ new) /\
    map row_file new = map (@file Data) l /\
    conn_data tx' = d1 /\ faults tx' = [].
Proof.
  induction l as [|m l IH]; intros a tx rows d1 Hf Hl Hnd Hnone Hrun;
    cbn [map up_loop run_ops] in *.
  - exists tx, []. rewrite !app_nil_r. inversion Hrun. auto.
  - inversion Hnd as [|? ? Hm Hnd']; subst.
    destruct (isMigrationApplied r tx (file m)) as [tx1 b] eqn:Eq.
    pose proof (isMigrationApplied_answer r tx (file m)) as Ha.
    rewrite Eq, Hf in Ha. simpl in Ha. specialize (Ha eq_refl).
    apply isMigrationApplied_db in Eq. destruct Eq as [Hd1 Hf1].
    rewrite Hf in Hf1. simpl in Hf1.
    assert (Hb : b = false).
    { rewrite Ha. unfold recorded, entries. rewrite Hl, (Hnone m (or_introl eq_refl)).
      reflexivity. }
    subst b.
    assert (Hl1 : ledger_of r tx1 = Some rows) by (unfold ledger_of; rewrite Hd1; exact Hl).
    assert (Hc1 : conn_data tx1 = conn_data tx) by (unfold conn_data; rewrite Hd1; reflexivity).
    rewrite Hc1. destruct (up m (conn_data tx)) as [d|e|p]; try discriminate.
    pose proof (saveAppliedMigration_cases r (with_data d tx1) (file m)) as S.
    pose proof (saveAppliedMigration_succeeds r (with_data d tx1) (file m) (rows:=rows)) as S'.
    destruct (saveAppliedMigration r (with_data d tx1) (file m)) as [tx2 err].
    simpl in S'. rewrite Hf1 in S'.
    specialize (S' eq_refl Hl1 (Hnone m (or_introl eq_refl))). subst err.
    destruct S as [Sf [_ [rows' [ts [S1 [_ S2]]]]]].
    change (ledger_of r (with_data d tx1)) with (ledger_of r tx1) in S1.
    rewrite Hl1 in S1. inversion S1; subst rows'. clear S1.
    simpl in Sf. rewrite Hf1 in Sf. simpl in Sf.
    destruct (IH (a ++ [file m]) tx2
                (rows ++ [{| row_file := file m; row_applied := ts |}]) d1 Sf)
      as [tx' [new [A [B [C [D E]]]]]].
    + unfold ledger_of. rewrite S2. apply set_table_same.
    + exact Hnd'.
    + intros m' Hin. rewrite count_file_app, count_file_one.
      rewrite (Hnone m' (or_intror Hin)).
      destruct (String.eqb_spec (file m) (file m')) as [E|E]; [|reflexivity].
      exfalso. apply Hm. rewrite E. apply in_map. exact Hin.
    + unfold conn_data. rewrite S2. simpl. exact Hrun.
    + exists tx', ({| row_file := file m; row_applied := ts |} :: new).
      rewrite A, B, <- !app_assoc. simpl. rewrite C, ?Hb. auto.
Qed.


Lemma up_loop_error r l : forall a tx tx' e,
  incl l (migrationsList r) ->
  up_loop r l a tx = (tx', Err e) -> up_failure r e.
Proof.
  induction l as [|m l IH]; intros a tx tx' e Hin H; simpl in H; [discriminate|].
  assert (Hm : In m (migrationsList r)) by (apply Hin; left; reflexivity).
  assert (Hl : incl l (migrationsList r)) by (intros x Hx; apply Hin; right; exact Hx).
  destruct (isMigrationApplied r tx (file m)) as [tx1 [|]]; [eapply IH; eauto|].
  destruct (up m (conn_data tx1)) as [d|e0|p] eqn:Eu; try discriminate.
  - destruct (saveAppliedMigration r (with_data d tx1) (file m)) as [tx2 [e0|]] eqn:Es.
    + inversion H; subst. exists m, e0. split; [exact Hm|]. right.
      split; [reflexivity|]. exists (with_data d tx1). rewrite Es. reflexivity.
    + eapply IH; eauto.
  - inversion H; subst. exists m, e0. split; [exact Hm|]. left.
    split; [reflexivity|]. exists (conn_data tx'). exact Eu.
Qed.

Lemma down_items_error r n tot ms : forall a tx tx' e,
  incl ms (migrationsList r) ->
  down_items r n tot ms a tx = (tx', Err e) -> down_failure r e.
Proof.
  induction ms as [|m ms IH]; intros a tx tx' e Hin H; simpl in H; [discriminate|].
  assert (Hm : In m (migrationsList r)) by (apply Hin; left; reflexivity).
  assert (Hl : incl ms (migrationsList r)) by (intros x Hx; apply Hin; right; exact Hx).
  destruct (isMigrationApplied r tx (file m)) as [tx1 [|]]; simpl in H;
    [|eapply IH; eauto].
  destruct (int_sub n tot <=? 0); [discriminate|].
  destruct (down m (conn_data tx1)) as [d|e0|p] eqn:Eu; try discriminate.
  - destruct (saveRevertedMigration r (with_data d tx1) (file m)) as [tx2 [e0|]] eqn:Es.
    + inversion H; subst. exists m, e0. split; [exact Hm|]. right.
      split; [reflexivity|]. exists (with_data d tx1). rewrite Es. reflexivity.
    + eapply IH; eauto.
  - inversion H; subst. exists m, e0. split; [exact Hm|]. left.
    split; [reflexivity|]. exists (conn_data tx'). exact Eu.
Qed.

(** A transaction that ends in an error leaves the contents as they were. *)
Lemma Transactional_error (A : Type) (f : Conn Data -> Conn Data * result A) c c' e :
  Transactional f c = (c', Err e) ->
  db c' = db c /\ exists tx, f c = (tx, Err e).
Proof.
  unfold Transactional. destruct (f c) as [tx [a|e0|p]]; intros H; inversion H; subst.
  split; [reflexivity|]. exists tx. reflexivity.
Qed.

Lemma Transactional_ok (A : Type) (f : Conn Data -> Conn Data * result A) c c' a :
  Transactional f c = (c', Ok a) -> f c = (c', Ok a).
Proof.
  unfold Transactional. destruct (f c) as [tx [a0|e0|p]]; intros H; inversion H; subst.
  reflexivity.
Qed.

End Batches.

(* ================================================================== *)
(** ** The revert count of [Down] *)

Section DownCount.

Variable Data : Type.
Implicit Types (r : Runner Data) (c : Conn Data).

(** Every positive count makes [Down] do the same thing. *)
Lemma Down_positive_counts_agree r c (n n' : Z) :
  is_int n -> is_int n' -> 0 < n -> 0 < n' -> Down r n c = Down r n' c.
Proof.
  intros Hi Hi' Hn Hn'. rewrite !Down_items. unfold Transactional.
  rewrite (down_items_positive_agree r (rev (migrationsList r)) [] c Hi Hi' Hn Hn').
  reflexivity.
Qed.

Lemma Down_nonpositive r c (n : Z) :
  is_int n -> n <= 0 -> exists c', Down r n c = (c', Ok []) /\ db c' = db c.
Proof.
  intros Hi Hn. rewrite Down_items. unfold Transactional.
  destruct (down_items_nonpositive r (rev (migrationsList r)) [] c Hi Hn) as [tx [A B]].
  rewrite A. exists tx. auto.
Qed.

(** C2, as the code has it: for every ledger state and every negative count
    [n], [Down n] reverts no unit: it returns the empty list without error and
    leaves the contents of the database, ledger included, as they were.  (Only
    the command layer gives a negative count the meaning "all", by putting
    the length of the list in its place before it calls [Down].) *)
Theorem Down_negative_count_reverts_nothing r c (n : Z) :
  is_int n -> n < 0 ->
  exists c', Down r n c = (c', Ok []) /\ db c' = db c.
Proof. intros Hi Hn. apply Down_nonpositive; [exact Hi | lia]. Qed.

(** C7: [Down 0] reverts nothing and returns the empty list without error,
    whatever the ledger; and with a count [n] greater than the number of
    applied units (no statement failing, identifiers distinct, the backward
    operations of the applied units going through), [Down n] returns without
    error the applied units, last registered first, having run their backward
    operations and removed their entries: no unit of the list is applied
    afterwards. *)
Theorem Down_edge_counts r c :
  (exists c0, Down r 0 c = (c0, Ok []) /\ db c0 = db c) /\
  (forall (n : Z) rows d',
     is_int n ->
     faults c = [] ->
     ledger_of r c = Some rows ->
     NoDup (map (@file Data) (migrationsList r)) ->
     run_ops (map (@down Data) (filter (on_ledger rows) (rev (migrationsList r))))
       (conn_data c) = Ok d' ->
     Z.of_nat (List.length (filter (on_ledger rows) (migrationsList r))) < n ->
     exists c',
       Down r n c
       = (c', Ok (map (@file Data) (filter (on_ledger rows) (rev (migrationsList r))))) /\
       conn_data c' = d' /\
       ledger_of r c'
       = Some (remaining
                 (map (@file Data) (filter (on_ledger rows) (migrationsList r))) rows) /\
       (forall m, In m (migrationsList r) -> recorded r c' (file m) = false)).
Proof.
  split.
  - apply Down_nonpositive; unfold is_int, int_min, int_max; lia.
  - intros n rows d' Hi Hf Hl Hnd Hrun Hn.
    assert (Hpos : 0 < n) by lia.
    assert (Hnd' : NoDup (map (@file Data) (rev (migrationsList r)))).
    { rewrite map_rev. apply NoDup_rev. exact Hnd. }
    destruct (@down_items_reverts Data r n (rev (migrationsList r)) [] c rows d'
                Hi Hpos Hf Hl Hnd' Hrun)
      as [tx' [A [B [C [D E]]]]].
    exists tx'. rewrite Down_items. unfold Transactional. rewrite A. simpl.
    assert (Hsame : forall f,
      existsb (String.eqb f) (map (@file Data) (filter (on_ledger rows) (rev (migrationsList r))))
      = existsb (String.eqb f) (map (@file Data) (filter (on_ledger rows) (migrationsList r)))).
    { intros f. apply eq_true_iff_eq. rewrite !existsb_exists.
      split; intros [x [Hx Hx']]; exists x; split; try exact Hx';
        apply in_map_iff in Hx; destruct Hx as [m [Em Hm]]; apply in_map_iff;
        exists m; split; try exact Em; apply filter_In in Hm; apply filter_In;
        destruct Hm as [Hm Hm']; split; try exact Hm'.
      - apply in_rev. exact Hm.
      - apply in_rev in Hm. exact Hm. }
    split; [reflexivity|]. split; [exact C|]. split.
    + rewrite B. f_equal. unfold remaining. apply filter_ext. intros x.
      rewrite Hsame. reflexivity.
    + intros m Hm. unfold recorded, entries. rewrite B, count_file_remaining.
      destruct (existsb _ _) eqn:Ex; [reflexivity|].
      destruct (on_ledger rows m) eqn:Eo; [|exact Eo].
      exfalso. rewrite Hsame in Ex.
      assert (Ht : existsb (String.eqb (file m))
                     (map (@file Data) (filter (on_ledger rows) (migrationsList r))) = true).
      { apply existsb_exists. exists (file m). split; [|apply String.eqb_refl].
        apply in_map. apply filter_In. split; assumption. }
      congruence.
Qed.

End DownCount.

(* ================================================================== *)
(** ** Batches of [Up] *)

Section UpBatches.

Variable Data : Type.
Implicit Types (r : Runner Data) (c : Conn Data).

(** C3: when the batch of [Up] reaches a unit whose forward operation fails
    (the units before it having gone through, and this one not being skipped),
    [Up] returns an error that wraps the unit's identifier and the cause, and
    the whole transaction is rolled back: the contents of the database, the
    ledger among them, are what they were before the call, so that no unit
    applied earlier in the same call is persisted. *)
Theorem Up_failure_rolls_back_batch r c (pre post : list (Migration Data))
    (m : Migration Data) (tx tx1 : Conn Data) (done : list string) (cause : error) :
  Items (migrationsList r) = pre ++ m :: post ->
  up_loop r pre [] c = (tx, Ok done) ->
  isMigrationApplied r tx (file m) = (tx1, false) ->
  up m (conn_data tx1) = Err cause ->
  exists c' e,
    Up r c = (c', Err e) /\
    Error e = ("Failed to apply migration " ++ file m ++ ": " ++ Error cause)%string /\
    Unwrap e = Some cause /\
    db c' = db c /\
    ledger_of r c' = ledger_of r c /\
    (forall f, In f done -> entries r c' f = 0).
Proof.
  intros Hl Hpre Hq Hup. unfold Up, Transactional. rewrite Hl, up_loop_app, Hpre.
  simpl. rewrite Hq, Hup. eexists. eexists. split; [reflexivity|].
  split; [reflexivity|]. split; [reflexivity|]. split; [reflexivity|].
  split; [reflexivity|]. intros f Hf.
  apply up_loop_ledger in Hpre. destruct Hpre as [_ Hg].
  unfold entries, ledger_of in *. simpl.
  destruct (tables (db c) (tableName r)) as [rows|]; [|reflexivity].
  destruct Hg as [new [_ [_ [C D]]]]. specialize (D _ eq_refl). simpl in D.
  subst done. apply C. exact Hf.
Qed.

(** Whatever the error, a failed [Up] or [Down] leaves the contents as they
    were. *)
Lemma Up_error_rolls_back r c c' e : Up r c = (c', Err e) -> db c' = db c.
Proof. intros H. apply Transactional_error in H. tauto. Qed.

Lemma Down_error_rolls_back r (n : Z) c c' e : Down r n c = (c', Err e) -> db c' = db c.
Proof. intros H. apply Transactional_error in H. tauto. Qed.

(** C6: when the existence query fails (the statement, or the scan of its
    row), [isMigrationApplied] answers [false]; and the error does not reach
    the caller of [Up] or [Down]: every error these return is the failure of a
    unit's operation or of a write to the ledger, wrapped with the unit's
    identifier. *)
Theorem query_failure_counts_as_not_applied r :
  (forall tx f tx1 (b : bool) e,
     Row_exists (tableName r) f false tx = (tx1, (b, Some e)) ->
     isMigrationApplied r tx f = (tx1, false)) /\
  (forall c c' e, Up r c = (c', Err e) -> up_failure r e) /\
  (forall (n : Z) c c' e, Down r n c = (c', Err e) -> down_failure r e).
Proof.
  split; [|split].
  - intros tx f tx1 b e H. unfold isMigrationApplied. rewrite H. reflexivity.
  - intros c c' e H. apply Transactional_error in H. destruct H as [_ [tx H]].
    eapply up_loop_error; [|exact H]. apply incl_refl.
  - intros n c c' e H. rewrite Down_items in H. apply Transactional_error in H.
    destruct H as [_ [tx H]]. eapply down_items_error; [|exact H].
    intros x Hx. apply in_rev. exact Hx.
Qed.

(** C5: when a first [Up] has returned its list and no statement fails
    afterwards, that list is non-empty exactly when some unit had no entry, a
    second [Up] returns the empty list, without error and without changing the
    contents, and the ledger holds exactly one entry for each unit of the
    list, after the first call as after the second. *)
Theorem Up_idempotent r c c1 (applied1 : list string) :
  Up r c = (c1, Ok applied1) ->
  faults c1 = [] ->
  (applied1 <> [] <->
   exists m, In m (migrationsList r) /\ entries r c (file m) = 0) /\
  (exists c2,
     Up r c1 = (c2, Ok []) /\ db c2 = db c1 /\
     forall m, In m (migrationsList r) ->
               entries r c1 (file m) = 1 /\ entries r c2 (file m) = 1).
Proof.
  intros H Hf. apply Transactional_ok in H. unfold Items in H.
  pose proof (up_loop_all_recorded _ _ _ _ H) as Hall.
  pose proof (up_loop_ledger _ _ _ _ H) as [_ Hg].
  split.
  - split.
    + intros Hne. unfold entries. destruct (ledger_of r c) as [rows|].
      * destruct Hg as [new [_ [_ [C D]]]]. specialize (D _ eq_refl). simpl in D.
        destruct applied1 as [|f fs]; [congruence|].
        assert (Hin : In f (map row_file new)) by (rewrite <- D; left; reflexivity).
        destruct (C f Hin) as [Hc Hi]. apply in_map_iff in Hi.
        destruct Hi as [m [Em Hm]]. exists m. rewrite Em. auto.
      * destruct Hg as [_ D]. specialize (D _ eq_refl). contradiction.
    + intros [m [Hm He]] ->. specialize (Hall m Hm).
      unfold recorded, entries in *. destruct (ledger_of r c) as [rows|].
      * destruct Hg as [new [A [_ [_ D]]]]. specialize (D _ eq_refl). simpl in D.
        symmetry in D. apply map_eq_nil in D. subst new. rewrite A, app_nil_r in Hall.
        rewrite He in Hall. discriminate.
      * destruct Hg as [A _]. rewrite A in Hall. discriminate.
  - destruct (@up_loop_all_skipped Data r (migrationsList r) [] c1 Hf Hall)
      as [c2 [A [B _]]].
    exists c2. unfold Up, Transactional, Items. rewrite A.
    split; [reflexivity|]. split; [exact B|]. intros m Hm.
    specialize (Hall m Hm). unfold recorded in Hall. apply Z.eqb_eq in Hall.
    split; [exact Hall|]. unfold entries, ledger_of in *. rewrite B. exact Hall.
Qed.


(** C10, as the code has it: within one [Up], an identifier that the call has
    recorded is not recorded again.  A later entry of the list that bears it
    is passed over provided its existence query does not fail: the query,
    sent on the open transaction, then sees the uncommitted insert, and the
    loop goes on with the rest of the list from the same contents and the
    same list of applied units.  Whatever the outcome of the queries, the
    runner's table keeps its primary key (the loop never leaves it with two
    entries for one identifier, and neither does [Up]), and the list [Up]
    returns has no identifier twice. *)
Theorem Up_records_each_identifier_once r c :
  (forall (pre post : list (Migration Data)) (m : Migration Data)
          (tx : Conn Data) (done : list string),
     Items (migrationsList r) = pre ++ m :: post ->
     up_loop r pre [] c = (tx, Ok done) ->
     In (file m) done ->
     hd None (faults tx) = None ->
     exists tx1,
       db tx1 = db tx /\
       up_loop r (Items (migrationsList r)) [] c = up_loop r post done tx1) /\
  (forall rows,
     ledger_of r c = Some rows -> pk_ok rows ->
     (forall tx' res,
        up_loop r (Items (migrationsList r)) [] c = (tx', res) ->
        exists rows', ledger_of r tx' = Some rows' /\ pk_ok rows') /\
     (forall c' res,
        Up r c = (c', res) ->
        exists rows', ledger_of r c' = Some rows' /\ pk_ok rows')) /\
  (forall c' out, Up r c = (c', Ok out) -> NoDup out).
Proof.
  assert (Hpk : forall rows tx' res,
            ledger_of r c = Some rows -> pk_ok rows ->
            up_loop r (Items (migrationsList r)) [] c = (tx', res) ->
            exists rows', ledger_of r tx' = Some rows' /\ pk_ok rows').
  { intros rows tx' res Hl Hp H. apply up_loop_ledger in H. destruct H as [_ Hg].
    rewrite Hl in Hg. destruct Hg as [new [A [B [C _]]]].
    exists (rows ++ new). split; [exact A|]. unfold pk_ok. rewrite map_app.
    apply NoDup_app; [exact Hp | exact B |].
    intros f Hf Hf'. destruct (C f Hf') as [Hc _].
    apply count_file_0_notin in Hc. contradiction. }
  split; [|split].
  - intros pre post m tx done Hl Hpre Hin Hq.
    destruct (isMigrationApplied r tx (file m)) as [tx1 b] eqn:Eq.
    pose proof (isMigrationApplied_answer r tx (file m) Hq) as Ha.
    rewrite Eq in Ha. simpl in Ha.
    apply isMigrationApplied_db in Eq as Hd. destruct Hd as [Hd _].
    exists tx1. split; [exact Hd|].
    rewrite Hl, up_loop_app, Hpre. simpl. rewrite Eq.
    assert (Hb : b = true); [|rewrite Hb; reflexivity].
    rewrite Ha. apply up_loop_ledger in Hpre. destruct Hpre as [_ Hg].
    unfold recorded, entries. destruct (ledger_of r c) as [rows|].
    + destruct Hg as [new [A [B [C D]]]]. specialize (D _ eq_refl). simpl in D.
      subst done. rewrite A, count_file_app. destruct (C _ Hin) as [Hc _]. rewrite Hc.
      assert (Hp : pk_ok new) by exact B.
      pose proof (pk_ok_count (file m) Hp) as Hle.
      destruct (Z.eq_dec (count_file (file m) new) 0) as [E|E].
      * apply count_file_0_notin in E. contradiction.
      * pose proof (count_file_nonneg (file m) new). apply Z.eqb_eq. lia.
    + destruct Hg as [_ D]. specialize (D _ eq_refl). subst done. destruct Hin.
  - intros rows Hl Hp. split; [exact (fun tx' res => Hpk rows tx' res Hl Hp)|].
    intros c' res H. unfold Up, Transactional in H.
    destruct (up_loop r (Items (migrationsList r)) [] c) as [tx' res'] eqn:E.
    destruct res' as [out|e|p]; inversion H; subst.
    + eapply Hpk; eauto.
    + exists rows. split; [exact Hl | exact Hp].
    + exists rows. split; [exact Hl | exact Hp].
  - intros c' out H. apply Transactional_ok in H. apply up_loop_ledger in H.
    destruct H as [_ Hg]. destruct (ledger_of r c) as [rows|].
    + destruct Hg as [new [_ [B [_ D]]]]. rewrite (D _ eq_refl). exact B.
    + destruct Hg as [_ D]. rewrite (D _ eq_refl). constructor.
Qed.

(** C4, as the code has it: for units registered in the order of a list
    (three of them, a, b, c, or any number) none of which is applied, with
    distinct identifiers, no statement failing and the operations going
    through, [Up] applies them in registration order and returns their
    identifiers in that order; a [Down] whose count is at least the length of
    the list (the count [Run] substitutes for a negative one) then reverts
    them in reverse registration order, returns their identifiers in that
    order and leaves the ledger as it was before [Up]. *)
Theorem Up_forward_then_Down_backward r c rows (d1 d2 : Data) (n : Z) :
  faults c = [] ->
  ledger_of r c = Some rows ->
  NoDup (map (@file Data) (migrationsList r)) ->
  (forall m, In m (migrationsList r) -> count_file (file m) rows = 0) ->
  run_ops (map (@up Data) (migrationsList r)) (conn_data c) = Ok d1 ->
  run_ops (map (@down Data) (rev (migrationsList r))) d1 = Ok d2 ->
  is_int n ->
  Z.of_nat (List.length (migrationsList r)) <= n ->
  exists c1 c2,
    Up r c = (c1, Ok (map (@file Data) (migrationsList r))) /\
    conn_data c1 = d1 /\
    Down r n c1 = (c2, Ok (rev (map (@file Data) (migrationsList r)))) /\
    conn_data c2 = d2 /\
    ledger_of r c2 = Some rows.
Proof.
  intros Hf Hl Hnd Hnone Hup Hdown Hi Hn.
  destruct (@up_loop_applies Data r (migrationsList r) [] c rows d1 Hf Hl Hnd Hnone Hup)
    as [c1 [new [A [B [C [D E]]]]]].
  simpl in A. exists c1.
  assert (HU : Up r c = (c1, Ok (map (@file Data) (migrationsList r)))).
  { unfold Up, Transactional, Items. rewrite A. reflexivity. }
  destruct (migrationsList r) as [|m0 l0] eqn:El.
  { exists c1. simpl in *. inversion Hup; subst. inversion Hdown; subst.
    apply map_eq_nil in C. subst new. rewrite app_nil_r in B.
    rewrite Down_items, El. simpl. auto. }
  rewrite <- El in *.
  assert (Hpos : 0 < n). { rewrite El in Hn. simpl in Hn. lia. }
  assert (Hall : forall m, In m (migrationsList r) -> on_ledger (rows ++ new) m = true).
  { intros m Hm. unfold on_ledger. rewrite count_file_app, (Hnone m Hm).
    assert (Hp : pk_ok new) by (unfold pk_ok; rewrite C; exact Hnd).
    pose proof (pk_ok_count (file m) Hp).
    destruct (Z.eq_dec (count_file (file m) new) 0) as [E0|E0].
    - apply count_file_0_notin in E0. exfalso. apply E0. rewrite C.
      apply in_map. exact Hm.
    - pose proof (count_file_nonneg (file m) new). apply Z.eqb_eq. lia. }
  assert (Hfil : filter (on_ledger (rows ++ new)) (rev (migrationsList r))
                 = rev (migrationsList r)).
  { apply forallb_filter_id. apply forallb_forall. intros m Hm. apply Hall.
    apply in_rev. exact Hm. }
  assert (Hnd' : NoDup (map (@file Data) (rev (migrationsList r)))).
  { rewrite map_rev. apply NoDup_rev. exact Hnd. }
  destruct (@down_items_reverts Data r n (rev (migrationsList r)) [] c1 (rows ++ new) d2
              Hi Hpos E B Hnd') as [c2 [A2 [B2 [C2 _]]]].
  { rewrite Hfil, D. exact Hdown. }
  exists c2. rewrite Hfil in A2, B2. simpl in A2.
  split; [exact HU|]. split; [exact D|]. split.
  { rewrite Down_items. unfold Transactional. rewrite A2, map_rev. reflexivity. }
  split; [exact C2|]. rewrite B2. f_equal.
  unfold remaining. rewrite filter_app.
  assert (R1 : filter (fun x => negb (existsb (String.eqb (row_file x))
                 (map (@file Data) (rev (migrationsList r))))) rows = rows).
  { apply forallb_filter_id. apply forallb_forall. intros x Hx.
    apply negb_true_iff. apply not_true_is_false. intros Ex.
    apply existsb_exists in Ex. destruct Ex as [f [Hfin Ef]].
    apply String.eqb_eq in Ef. subst f. apply in_map_iff in Hfin.
    destruct Hfin as [m [Em Hm]]. apply in_rev in Hm.
    specialize (Hnone m Hm). apply count_file_0_notin in Hnone. apply Hnone.
    rewrite Em. apply in_map. exact Hx. }
  assert (R2 : filter (fun x => negb (existsb (String.eqb (row_file x))
                 (map (@file Data) (rev (migrationsList r))))) new = []).
  { rewrite <- (filter_false new). apply filter_ext_in. intros x Hx.
    apply negb_false_iff. apply existsb_exists. exists (row_file x).
    split; [|apply String.eqb_refl]. rewrite map_rev, <- in_rev, <- C.
    apply in_map. exact Hx. }
  rewrite R1, R2, app_nil_r. reflexivity.
Qed.

End UpBatches.

(* ================================================================== *)
(** ** Construction and the command layer *)

Section Construction.

Variable Data : Type.
Implicit Types (r : Runner Data) (c : Conn Data) (l : MigrationsList Data).

(** C8: [NewRunner] issues exactly one statement, the
    [CREATE TABLE IF NOT EXISTS] of the ledger table, and does so before it
    hands out the runner that [Up] and [Down] need; when the statement fails
    it returns the error and no runner, the contents untouched; when it
    returns a runner the table exists; and when the statement is not made to
    fail, construction succeeds whether or not the table is already there, an
    existing table keeping its rows, so that a further construction on the
    resulting connection succeeds as well. *)
Theorem NewRunner_bootstraps_ledger c l :
  log (fst (NewRunner c l)) = log c ++ [CreateTableIfNotExists migrationsTable] /\
  (forall e, hd None (faults c) = Some e ->
             snd (NewRunner c l) = Err e /\ db (fst (NewRunner c l)) = db c) /\
  (forall r, snd (NewRunner c l) = Ok r ->
             r = {| migrationsList := l; tableName := migrationsTable |} /\
             ledger_of r (fst (NewRunner c l)) <> None) /\
  (hd None (faults c) = None ->
     (exists r, snd (NewRunner c l) = Ok r) /\
     (forall rows, tables (db c) migrationsTable = Some rows ->
                   db (fst (NewRunner c l)) = db c) /\
     (hd None (tl (faults c)) = None ->
      forall l', exists r', snd (NewRunner (fst (NewRunner c l)) l') = Ok r' /\
                            db (fst (NewRunner (fst (NewRunner c l)) l'))
                            = db (fst (NewRunner c l)))).
Proof.
  assert (Healthy : forall c0 l0,
            hd None (faults c0) = None ->
            snd (NewRunner c0 l0)
            = Ok {| migrationsList := l0; tableName := migrationsTable |} /\
            tables (db (fst (NewRunner c0 l0))) migrationsTable <> None /\
            faults (fst (NewRunner c0 l0)) = tl (faults c0) /\
            (tables (db c0) migrationsTable <> None ->
             db (fst (NewRunner c0 l0)) = db c0)).
  { intros c0 l0 Hh. unfold NewRunner, createMigrationsTable, Execute, issued, run_stmt.
    simpl. destruct (faults c0) as [|[e|] fs]; simpl in *; try discriminate;
      destruct (tables (db c0) migrationsTable) as [rows|] eqn:Et; simpl;
      rewrite ?Et; repeat split; try discriminate; try congruence. }
  split; [|split; [|split]].
  - unfold NewRunner, createMigrationsTable, Execute, issued, run_stmt. simpl.
    destruct (faults c) as [|[e|] fs]; simpl;
      destruct (tables (db c) migrationsTable); reflexivity.
  - intros e He. unfold NewRunner, createMigrationsTable, Execute, issued. simpl.
    destruct (faults c) as [|[e'|] fs]; simpl in *; try discriminate.
    inversion He; subst. split; reflexivity.
  - intros r Hr. unfold ledger_of.
    unfold NewRunner, createMigrationsTable, Execute, issued, run_stmt in *. simpl in *.
    destruct (faults c) as [|[e|] fs]; simpl in *; try discriminate;
      destruct (tables (db c) migrationsTable) as [rows|] eqn:Et; simpl in *;
      inversion Hr; subst; simpl; rewrite ?Et; split; try reflexivity; discriminate.
  - intros Hh. destruct (Healthy c l Hh) as [A [B [C D]]].
    split; [eexists; exact A|]. split.
    + intros rows Hrows. apply D. rewrite Hrows. discriminate.
    + intros Hh' l'. rewrite <- C in Hh'.
      destruct (Healthy (fst (NewRunner c l)) l' Hh') as [A' [_ [_ D']]].
      eexists. split; [exact A' | exact (D' B)].
Qed.

End Construction.

Section Command.

Variable Data : Type.
Variable ToInt : string -> Z.
Variable Quote : string -> string.
Variable createFile : list string -> Term -> Term * result unit.
Implicit Types (r : Runner Data) (c : Conn Data) (t : Term).

(** C9: [Run] without arguments is the ["up"] command; ["down"] without a
    count calls [Down] with the count 1; and a count argument that
    [cast.ToInt] reads as a negative integer is replaced, before [Down] is
    called, by the length of the migrations list (whatever the number of
    applied units).  In both cases [Down] is called once the prompt has been
    answered yes, on the connection [Run] was given, and [Run] returns what
    [Down] returned. *)
Theorem Run_down_counts r t c :
  Run ToInt Quote createFile r [] t c = Run ToInt Quote createFile r ["up"%string] t c /\
  toRevertCount_of ToInt r ["down"%string] = 1 /\
  (forall s more,
     ToInt s < 0 ->
     toRevertCount_of ToInt r ("down"%string :: s :: more)
     = Z.of_nat (List.length (Items (migrationsList r)))) /\
  (forall args rest,
     hd ""%string args = "down"%string ->
     answers t = true :: rest ->
     let n := toRevertCount_of ToInt r args in
     snd (fst (Run ToInt Quote createFile r args t c)) = fst (Down r n c) /\
     snd (Run ToInt Quote createFile r args t c) = reported (snd (Down r n c))).
Proof.
  split; [reflexivity|]. split; [reflexivity|]. split.
  - intros s more Hs. unfold toRevertCount_of. simpl.
    destruct (Z.ltb_spec (ToInt s) 0); [reflexivity | lia].
  - intros args rest Hcmd Hans n. unfold Run.
    assert (Hc : match args with [] => "up"%string | a :: _ => a end = "down"%string).
    { destruct args; simpl in Hcmd; [discriminate | exact Hcmd]. }
    rewrite Hc. simpl. unfold survey_AskOne. rewrite Hans. simpl. fold n.
    destruct (Down r n c) as [c1 [[|x xs]|e|p]]; simpl; split; reflexivity.
Qed.

End Command.

(* ================================================================== *)
(** ** The properties on the concrete store *)

Import Sample.

(** C1: with the five units of [five] applied, [Down 2] does not stop after
    two: it reverts all five, returns their five identifiers and leaves the
    ledger empty.  The local [totalReverted] stays 0, so that the limit test
    never becomes true for a positive count
    ([Down_positive_counts_agree]). *)
Theorem Down_2_of_5_reverts_all_5 :
  ledger_files (migrated five)
  = Some ["1_init"; "2_users"; "3_posts"; "4_tags"; "5_likes"]%string /\
  snd (Down (runner_of five) 2 (migrated five))
  = Ok ["5_likes"; "4_tags"; "3_posts"; "2_users"; "1_init"]%string /\
  ledger_files (fst (Down (runner_of five) 2 (migrated five))) = Some [].
Proof. vm_compute. repeat split. Qed.

(** C2 fails as stated: with a, b and c applied, [Down (-1)] returns the empty
    list and the three entries are still in the ledger. *)
Lemma Down_minus_1_reverts_nothing :
  ledger_files (migrated abc) = Some ["a"; "b"; "c"]%string /\
  snd (Down (runner_of abc) (-1) (migrated abc)) = Ok [] /\
  snd (Down (runner_of abc) (-1) (migrated abc)) <> Ok ["c"; "b"; "a"]%string /\
  ledger_files (fst (Down (runner_of abc) (-1) (migrated abc)))
  = Some ["a"; "b"; "c"]%string.
Proof. vm_compute. repeat split. discriminate. Qed.

Lemma Down_negative_count_reverts_nothing_witness :
  is_int (-1) /\ -1 < 0 /\
  exists c', Down (runner_of abc) (-1) (migrated abc) = (c', Ok []) /\
             db c' = db (migrated abc).
Proof.
  assert (Hi : is_int (-1)) by (unfold is_int, int_min, int_max; lia).
  assert (Hn : -1 < 0) by lia.
  exact (conj Hi (conj Hn
           (Down_negative_count_reverts_nothing (runner_of abc) (migrated abc) Hi Hn))).
Defined.

(** C4 fails as stated: [Up] applies a, b, c in that order, but the
    [Down (-1)] that follows returns the empty list, not c, b, a, and leaves
    the three entries in the ledger. *)
Lemma Up_then_Down_minus_1_reverts_nothing :
  snd (Up (runner_of abc) (booted abc)) = Ok ["a"; "b"; "c"]%string /\
  snd (Down (runner_of abc) (-1) (migrated abc)) = Ok [] /\
  snd (Down (runner_of abc) (-1) (migrated abc)) <> Ok ["c"; "b"; "a"]%string /\
  ledger_files (fst (Down (runner_of abc) (-1) (migrated abc)))
  = Some ["a"; "b"; "c"]%string.
Proof. vm_compute. repeat split. discriminate. Qed.

Lemma NoDup_abc : NoDup (map (@file Schema) abc).
Proof.
  simpl. repeat (constructor; [simpl; intuition discriminate|]). constructor.
Defined.

Lemma Up_forward_then_Down_backward_witness :
  exists c1 c2,
    Up (runner_of abc) (booted abc) = (c1, Ok ["a"; "b"; "c"]%string) /\
    conn_data c1 = ["a"; "b"; "c"]%string /\
    Down (runner_of abc) 3 c1 = (c2, Ok ["c"; "b"; "a"]%string) /\
    conn_data c2 = [] /\
    ledger_of (runner_of abc) c2 = Some [].
Proof.
  apply (@Up_forward_then_Down_backward Schema (runner_of abc) (booted abc) []
           ["a"; "b"; "c"]%string [] 3).
  - reflexivity.
  - reflexivity.
  - exact NoDup_abc.
  - intros m _. reflexivity.
  - reflexivity.
  - reflexivity.
  - unfold is_int, int_min, int_max. lia.
  - simpl. lia.
Defined.

Lemma Up_failure_rolls_back_batch_witness :
  exists c' e,
    Up (runner_of a_bad_c) (booted a_bad_c) = (c', Err e) /\
    Error e = "Failed to apply migration b: syntax error"%string /\
    Unwrap e = Some (ErrNew "syntax error") /\
    db c' = db (booted a_bad_c) /\
    ledger_of (runner_of a_bad_c) c' = ledger_of (runner_of a_bad_c) (booted a_bad_c) /\
    (forall f, In f ["a"%string] -> entries (runner_of a_bad_c) c' f = 0).
Proof.
  apply (@Up_failure_rolls_back_batch Schema (runner_of a_bad_c) (booted a_bad_c)
           [unit_ "a"] [unit_ "c"] (broken "b")
           (fst (up_loop (runner_of a_bad_c) [unit_ "a"] [] (booted a_bad_c)))
           (fst (isMigrationApplied (runner_of a_bad_c)
                   (fst (up_loop (runner_of a_bad_c) [unit_ "a"] [] (booted a_bad_c)))
                   "b"))
           ["a"%string] (ErrNew "syntax error")).
  - reflexivity.
  - reflexivity.
  - reflexivity.
  - reflexivity.
Defined.

Lemma Up_idempotent_witness :
  (["a"; "b"; "c"]%string <> [] <->
   exists m, In m abc /\ entries (runner_of abc) (booted abc) (file m) = 0) /\
  (exists c2,
     Up (runner_of abc) (migrated abc) = (c2, Ok []) /\ db c2 = db (migrated abc) /\
     forall m, In m abc ->
               entries (runner_of abc) (migrated abc) (file m) = 1 /\
               entries (runner_of abc) c2 (file m) = 1).
Proof.
  apply (@Up_idempotent Schema (runner_of abc) (booted abc) (migrated abc)
           ["a"; "b"; "c"]%string).
  - reflexivity.
  - reflexivity.
Defined.

(** The existence query for "a" fails on a connection whose ledger holds "a":
    the answer is [false]; and an [Up] whose first query fails still returns
    its list. *)
Lemma query_failure_counts_as_not_applied_witness :
  recorded (runner_of abc) (with_faults [Some lost] (migrated abc)) "a" = true /\
  snd (isMigrationApplied (runner_of abc) (with_faults [Some lost] (migrated abc)) "a")
  = false /\
  snd (Up (runner_of abc) (with_faults [Some lost] (booted abc)))
  = Ok ["a"; "b"; "c"]%string.
Proof.
  split; [reflexivity|]. split; [|reflexivity].
  rewrite (proj1 (query_failure_counts_as_not_applied (runner_of abc))
             (with_faults [Some lost] (migrated abc)) "a"
             (fst (Row_exists migrationsTable "a" false
                     (with_faults [Some lost] (migrated abc))))
             false lost eq_refl).
  reflexivity.
Defined.

Lemma NoDup_five : NoDup (map (@file Schema) five).
Proof.
  simpl. repeat (constructor; [simpl; intuition discriminate|]). constructor.
Defined.

Lemma Down_edge_counts_witness :
  (exists c0, Down (runner_of five) 0 (migrated five) = (c0, Ok []) /\
              db c0 = db (migrated five)) /\
  (exists c',
     Down (runner_of five) 100 (migrated five)
     = (c', Ok ["5_likes"; "4_tags"; "3_posts"; "2_users"; "1_init"]%string) /\
     conn_data c' = [] /\
     ledger_of (runner_of five) c' = Some [] /\
     (forall m, In m five -> recorded (runner_of five) c' (file m) = false)).
Proof.
  destruct (Down_edge_counts (runner_of five) (migrated five)) as [H0 H].
  split; [exact H0|].
  apply (H 100 five_rows []).
  - unfold is_int, int_min, int_max. lia.
  - reflexivity.
  - reflexivity.
  - exact NoDup_five.
  - reflexivity.
  - vm_compute. reflexivity.
Defined.

Lemma NewRunner_bootstraps_ledger_witness :
  (exists r, snd (NewRunner fresh abc) = Ok r) /\
  (forall l', exists r', snd (NewRunner (booted abc) l') = Ok r' /\
                         db (fst (NewRunner (booted abc) l')) = db (booted abc)) /\
  snd (NewRunner (with_faults [Some lost] fresh) abc) = Err lost.
Proof.
  destruct (NewRunner_bootstraps_ledger fresh abc) as [_ [_ [_ H]]].
  destruct (H eq_refl) as [A [_ B]].
  split; [exact A|]. split; [exact (B eq_refl)|].
  exact (proj1 (proj1 (proj2 (NewRunner_bootstraps_ledger
                                (with_faults [Some lost] fresh) abc)) lost eq_refl)).
Defined.

Lemma Run_down_counts_witness :
  to_int "-1" < 0 /\
  toRevertCount_of to_int (runner_of abc) ["down"; "-1"]%string = 3 /\
  snd (fst (Run to_int no_quote no_file (runner_of abc) ["down"]%string yes (migrated abc)))
  = fst (Down (runner_of abc) 1 (migrated abc)) /\
  snd (Run to_int no_quote no_file (runner_of abc) ["down"; "-1"]%string yes (migrated abc))
  = reported (snd (Down (runner_of abc) 3 (migrated abc))).
Proof.
  destruct (Run_down_counts to_int no_quote no_file (runner_of abc) yes (migrated abc))
    as [_ [_ [Hneg Hrun]]].
  assert (Hs : to_int "-1" < 0) by (vm_compute; reflexivity).
  split; [exact Hs|]. split; [exact (Hneg "-1"%string [] Hs)|]. split.
  - exact (proj1 (Hrun ["down"]%string [] eq_refl eq_refl)).
  - exact (proj2 (Hrun ["down"; "-1"]%string [] eq_refl eq_refl)).
Defined.

(** With the identifier "a" registered twice, the second entry is passed
    over, and [Up] returns "a" once. *)
Lemma Up_records_each_identifier_once_witness :
  (exists tx1,
     db tx1 = db (fst (up_loop (runner_of a_twice) [unit_ "a"] [] (booted a_twice))) /\
     up_loop (runner_of a_twice) a_twice [] (booted a_twice)
     = up_loop (runner_of a_twice) [] ["a"%string] tx1) /\
  (exists rows', ledger_of (runner_of a_twice) (fst (Up (runner_of a_twice) (booted a_twice)))
                 = Some rows' /\ pk_ok rows') /\
  NoDup ["a"%string].
Proof.
  destruct (Up_records_each_identifier_once (runner_of a_twice) (booted a_twice))
    as [Hskip [Hpk Hnd]].
  split; [|split].
  - apply (Hskip [unit_ "a"] [] (unit_ "a")
             (fst (up_loop (runner_of a_twice) [unit_ "a"] [] (booted a_twice)))
             ["a"%string]).
    + reflexivity.
    + reflexivity.
    + left. reflexivity.
    + reflexivity.
  - destruct (Hpk [] eq_refl (NoDup_nil _)) as [_ H].
    apply (H (fst (Up (runner_of a_twice) (booted a_twice)))
             (snd (Up (runner_of a_twice) (booted a_twice)))).
    reflexivity.
  - apply (Hnd (fst (Up (runner_of a_twice) (booted a_twice)))). reflexivity.
Defined.

(** C10 fails as stated: with the identifier "a" registered twice and the
    existence query of the second entry failing, the first entry is applied
    and recorded, and the second is not skipped: its operation runs again
    (the data holds "a" twice when the loop stops), the insert is refused by
    the primary key, and [Up] returns that error. *)
Lemma Up_later_duplicate_runs_again :
  snd (up_loop (runner_of a_twice) [unit_ "a"] [] Cases.third_fails)
  = Ok ["a"%string] /\
  entries (runner_of a_twice)
    (fst (up_loop (runner_of a_twice) [unit_ "a"] [] Cases.third_fails)) "a" = 1 /\
  conn_data (fst (up_loop (runner_of a_twice) a_twice [] Cases.third_fails))
  = ["a"; "a"]%string /\
  snd (Up (runner_of a_twice) Cases.third_fails)
  = Err (ErrWrap
           "Failed to save applied migration info for a: UNIQUE constraint failed: _migrations.file"
           (ErrNew "UNIQUE constraint failed: _migrations.file")).
Proof. vm_compute. repeat split. Qed.

(* ================================================================== *)
(** ** Further properties of the loops *)

Section LoopFacts.

Variable Data : Type.
Implicit Types (r : Runner Data) (c tx : Conn Data) (f : string) (rows : list Row)
  (l ms : list (Migration Data)) (m : Migration Data).

Lemma shrinks_nothing r ms a tx tx' res :
  tables (db tx') = tables (db tx) -> (forall out, res = Ok out -> out = a) ->
  shrinks r ms a tx tx' res.
Proof.
  intros Hd Hr. unfold shrinks, ledger_of. rewrite Hd. split; [reflexivity|].
  destruct (tables (db tx) (tableName r)) as [rows|].
  - exists []. rewrite remaining_nil. split; [reflexivity|]. split; [constructor|].
    split; [intros f []|]. intros out Ho. rewrite app_nil_r. auto.
  - split; [reflexivity | exact Hr].
Qed.

Lemma down_items_ledger r n tot ms : forall a tx tx' res,
  down_items r n tot ms a tx = (tx', res) -> shrinks r ms a tx tx' res.
Proof.
  induction ms as [|m ms IH]; intros a tx tx' res H; simpl in H.
  - inversion H; subst. apply shrinks_nothing; [reflexivity|].
    intros out Ho. inversion Ho. reflexivity.
  - destruct (isMigrationApplied r tx (file m)) as [tx1 b] eqn:Eq.
    pose proof (isMigrationApplied_true r tx (file m)) as Ht.
    rewrite Eq in Ht. simpl in Ht.
    apply isMigrationApplied_db in Eq. destruct Eq as [Hd1 _].
    assert (Hl1 : ledger_of r tx1 = ledger_of r tx)
      by (unfold ledger_of; rewrite Hd1; reflexivity).
    destruct b; simpl in H.
    + destruct (int_sub n tot <=? 0).
      { inversion H; subst. apply shrinks_nothing; [rewrite Hd1; reflexivity|].
        intros out Ho. inversion Ho. reflexivity. }
      destruct (down m (conn_data tx1)) as [d|e|p].
      2,3: inversion H; subst; apply shrinks_nothing;
        [rewrite Hd1; reflexivity | discriminate].
      pose proof (saveRevertedMigration_cases r (with_data d tx1) (file m)) as S.
      destruct (saveRevertedMigration r (with_data d tx1) (file m)) as [tx2 [e|]].
      * inversion H; subst. destruct S as [_ S]. apply shrinks_nothing;
          [rewrite S; simpl; rewrite Hd1; reflexivity | discriminate].
      * destruct S as [_ [_ [rows [S1 S2]]]].
        specialize (IH _ _ _ _ H). unfold shrinks in *.
        assert (Hl2 : ledger_of r tx2 = Some (delete_file (file m) rows)).
        { unfold ledger_of. rewrite S2. apply set_table_same. }
        assert (Hl : ledger_of r tx = Some rows).
        { rewrite <- Hl1. exact S1. }
        specialize (Ht eq_refl). unfold recorded, entries in Ht. rewrite Hl in Ht.
        apply Z.eqb_eq in Ht.
        rewrite Hl2 in IH. rewrite Hl. destruct IH as [IH1 [fs [A [B [C D]]]]].
        split.
        { intros t Hn. rewrite (IH1 t Hn), S2, set_table_other by exact Hn.
          simpl. rewrite Hd1. reflexivity. }
        assert (Hnot : ~ In (file m) fs).
        { intros Hin. destruct (C _ Hin) as [Hc _].
          rewrite count_file_delete_same in Hc. discriminate. }
        exists (file m :: fs).
        split; [rewrite A, remaining_delete; reflexivity|].
        split; [constructor; assumption|].
        split.
        { simpl. intros f [Hf|Hf].
          - subst f. split; [exact Ht | left; reflexivity].
          - destruct (C _ Hf) as [Hc Hi]. split; [|right; exact Hi].
            rewrite count_file_delete_other in Hc; [exact Hc|].
            intros E. subst f. contradiction. }
        intros out Ho. rewrite (D out Ho), <- app_assoc. reflexivity.
    + specialize (IH _ _ _ _ H). unfold shrinks in *.
      rewrite Hl1, Hd1 in IH. destruct IH as [IH1 IH2].
      split; [exact IH1|].
      destruct (ledger_of r tx) as [rows|]; [|exact IH2].
      destruct IH2 as [fs [A [B [C D]]]]. exists fs.
      split; [exact A|]. split; [exact B|]. split; [|exact D].
      intros f Hf. destruct (C f Hf). split; [assumption | right; assumption].
Qed.

(** The lists the loops return follow the order in which the items are
    visited. *)
Lemma up_loop_order r l : forall a tx tx' out,
  up_loop r l a tx = (tx', Ok out) ->
  exists new, out = a ++ new /\ subseq new (map (@file Data) l).
Proof.
  induction l as [|m l IH]; intros a tx tx' out H; simpl in H.
  - inversion H; subst. exists []. rewrite app_nil_r. split; [reflexivity|constructor].
  - destruct (isMigrationApplied r tx (file m)) as [tx1 [|]].
    + destruct (IH _ _ _ _ H) as [new [A B]]. exists new.
      split; [exact A|]. simpl. apply subseq_skip. exact B.
    + destruct (up m (conn_data tx1)) as [d|e|p]; try discriminate.
      destruct (saveAppliedMigration r (with_data d tx1) (file m)) as [tx2 [e|]];
        try discriminate.
      destruct (IH _ _ _ _ H) as [new [A B]]. exists (file m :: new).
      split; [rewrite A, <- app_assoc; reflexivity|]. simpl. apply subseq_take. exact B.
Qed.

Lemma down_items_order r n tot ms : forall a tx tx' out,
  down_items r n tot ms a tx = (tx', Ok out) ->
  exists new, out = a ++ new /\ subseq new (map (@file Data) ms).
Proof.
  induction ms as [|m ms IH]; intros a tx tx' out H; simpl in H.
  - inversion H; subst. exists []. rewrite app_nil_r. split; [reflexivity|constructor].
  - assert (Hnil : forall k, subseq (@nil string) k).
    { induction k; constructor; assumption. }
    destruct (isMigrationApplied r tx (file m)) as [tx1 [|]]; simpl in H.
    + destruct (int_sub n tot <=? 0).
      { inversion H; subst. exists []. rewrite app_nil_r. split; [reflexivity|apply Hnil]. }
      destruct (down m (conn_data tx1)) as [d|e|p]; try discriminate.
      destruct (saveRevertedMigration r (with_data d tx1) (file m)) as [tx2 [e|]];
        try discriminate.
      destruct (IH _ _ _ _ H) as [new [A B]]. exists (file m :: new).
      split; [rewrite A, <- app_assoc; reflexivity|]. simpl. apply subseq_take. exact B.
    + destruct (IH _ _ _ _ H) as [new [A B]]. exists new.
      split; [exact A|]. simpl. apply subseq_skip. exact B.
Qed.

(** A panic of a loop is the panic of a unit's operation. *)
Lemma up_loop_panic r l : forall a tx tx' p,
  up_loop r l a tx = (tx', Panic p) ->
  exists m d, In m l /\ up m d = Panic p.
Proof.
  induction l as [|m l IH]; intros a tx tx' p H; simpl in H; [discriminate|].
  destruct (isMigrationApplied r tx (file m)) as [tx1 [|]].
  - destruct (IH _ _ _ _ H) as [m' [d [A B]]]. exists m', d. split; [right|]; assumption.
  - destruct (up m (conn_data tx1)) as [d|e|p'] eqn:Eu; try discriminate.
    + destruct (saveAppliedMigration r (with_data d tx1) (file m)) as [tx2 [e|]];
        try discriminate.
      destruct (IH _ _ _ _ H) as [m' [d' [A B]]]. exists m', d'.
      split; [right|]; assumption.
    + inversion H; subst. exists m, (conn_data tx'). split; [left; reflexivity | exact Eu].
Qed.

Lemma down_items_panic r n tot ms : forall a tx tx' p,
  down_items r n tot ms a tx = (tx', Panic p) ->
  exists m d, In m ms /\ down m d = Panic p.
Proof.
  induction ms as [|m ms IH]; intros a tx tx' p H; simpl in H; [discriminate|].
  destruct (isMigrationApplied r tx (file m)) as [tx1 [|]]; simpl in H.
  - destruct (int_sub n tot <=? 0); [discriminate|].
    destruct (down m (conn_data tx1)) as [d|e|p'] eqn:Eu; try discriminate.
    + destruct (saveRevertedMigration r (with_data d tx1) (file m)) as [tx2 [e|]];
        try discriminate.
      destruct (IH _ _ _ _ H) as [m' [d' [A B]]]. exists m', d'.
      split; [right|]; assumption.
    + inversion H; subst. exists m, (conn_data tx'). split; [left; reflexivity | exact Eu].
  - destruct (IH _ _ _ _ H) as [m' [d [A B]]]. exists m', d. split; [right|]; assumption.
Qed.

End LoopFacts.

Section Logs.

Variable Data : Type.
Implicit Types (r : Runner Data) (c tx : Conn Data) (f : string) (rows : list Row)
  (l ms : list (Migration Data)) (m : Migration Data).

Lemma isMigrationApplied_log r tx f :
  log (fst (isMigrationApplied r tx f))
  = log tx ++ [SelectCountWhereFile (tableName r) f].
Proof. rewrite isMigrationApplied_conn. reflexivity. Qed.

Lemma saveAppliedMigration_log r tx f :
  log (fst (saveAppliedMigration r tx f))
  = log tx ++ [InsertRow (tableName r) f (now tx)].
Proof.
  unfold saveAppliedMigration, time_Now_Unix, Execute, issued.
  destruct (later tx); simpl;
    destruct (faults tx) as [|[e|] fs]; simpl; try reflexivity;
    destruct (tables (db tx) (tableName r)) as [rows|]; simpl; try reflexivity;
    destruct (0 <? count_file f rows); reflexivity.
Qed.

Lemma saveRevertedMigration_log r tx f :
  log (fst (saveRevertedMigration r tx f))
  = log tx ++ [DeleteWhereFile (tableName r) f].
Proof.
  unfold saveRevertedMigration, Execute, issued.
  destruct (faults tx) as [|[e|] fs]; simpl; try reflexivity;
    destruct (tables (db tx) (tableName r)) as [rows|]; reflexivity.
Qed.

Lemma up_loop_log r l : forall a tx tx' res,
  up_loop r l a tx = (tx', res) ->
  exists stmts,
    log tx' = log tx ++ stmts /\ Forall (up_stmt r) stmts /\
    (List.length stmts <= 2 * List.length l)%nat.
Proof.
  induction l as [|m l IH]; intros a tx tx' res H; simpl in H.
  - inversion H; subst. exists []. rewrite app_nil_r. simpl. auto.
  - pose proof (isMigrationApplied_log r tx (file m)) as L1.
    destruct (isMigrationApplied r tx (file m)) as [tx1 b]. simpl in L1.
    assert (Hsel : up_stmt r (SelectCountWhereFile (tableName r) (file m)))
      by reflexivity.
    destruct b.
    + destruct (IH _ _ _ _ H) as [stmts [A [B C]]].
      exists (SelectCountWhereFile (tableName r) (file m) :: stmts).
      rewrite A, L1, <- app_assoc. simpl. split; [reflexivity|].
      split; [constructor; assumption | lia].
    + destruct (up m (conn_data tx1)) as [d|e|p].
      2,3: inversion H; subst; exists [SelectCountWhereFile (tableName r) (file m)];
        split; [exact L1|]; split; [repeat constructor | simpl; lia].
      pose proof (saveAppliedMigration_log r (with_data d tx1) (file m)) as L2.
      destruct (saveAppliedMigration r (with_data d tx1) (file m)) as [tx2 err].
      simpl in L2.
      assert (Hins : up_stmt r (InsertRow (tableName r) (file m) (now tx1)))
        by reflexivity.
      destruct err as [e|].
      * inversion H; subst.
        exists [SelectCountWhereFile (tableName r) (file m);
                InsertRow (tableName r) (file m) (now tx1)].
        rewrite L2, L1, <- app_assoc. simpl. split; [reflexivity|].
        split; [repeat constructor | lia].
      * destruct (IH _ _ _ _ H) as [stmts [A [B C]]].
        exists (SelectCountWhereFile (tableName r) (file m)
                  :: InsertRow (tableName r) (file m) (now tx1) :: stmts).
        rewrite A, L2, L1, <- !app_assoc. simpl. split; [reflexivity|].
        split; [repeat (constructor; try assumption) | lia].
Qed.

Lemma down_items_log r n tot ms : forall a tx tx' res,
  down_items r n tot ms a tx = (tx', res) ->
  exists stmts,
    log tx' = log tx ++ stmts /\ Forall (down_stmt r) stmts /\
    (List.length stmts <= 2 * List.length ms)%nat.
Proof.
  induction ms as [|m ms IH]; intros a tx tx' res H; simpl in H.
  - inversion H; subst. exists []. rewrite app_nil_r. simpl. auto.
  - pose proof (isMigrationApplied_log r tx (file m)) as L1.
    destruct (isMigrationApplied r tx (file m)) as [tx1 b]. simpl in L1.
    assert (Hsel : down_stmt r (SelectCountWhereFile (tableName r) (file m)))
      by reflexivity.
    assert (Hone : exists stmts,
               log tx1 = log tx ++ stmts /\ Forall (down_stmt r) stmts /\
               (List.length stmts <= 2 * List.length (m :: ms))%nat).
    { exists [SelectCountWhereFile (tableName r) (file m)].
      split; [exact L1|]. split; [repeat constructor | simpl; lia]. }
    destruct b; simpl in H.
    + destruct (int_sub n tot <=? 0); [inversion H; subst; exact Hone|].
      destruct (down m (conn_data tx1)) as [d|e|p].
      2,3: inversion H; subst; exact Hone.
      pose proof (saveRevertedMigration_log r (with_data d tx1) (file m)) as L2.
      destruct (saveRevertedMigration r (with_data d tx1) (file m)) as [tx2 err].
      simpl in L2.
      assert (Hdel : down_stmt r (DeleteWhereFile (tableName r) (file m)))
        by reflexivity.
      destruct err as [e|].
      * inversion H; subst.
        exists [SelectCountWhereFile (tableName r) (file m);
                DeleteWhereFile (tableName r) (file m)].
        rewrite L2, L1, <- app_assoc. simpl. split; [reflexivity|].
        split; [repeat constructor | lia].
      * destruct (IH _ _ _ _ H) as [stmts [A [B C]]].
        exists (SelectCountWhereFile (tableName r) (file m)
                  :: DeleteWhereFile (tableName r) (file m) :: stmts).
        rewrite A, L2, L1, <- !app_assoc. simpl. split; [reflexivity|].
        split; [repeat (constructor; try assumption) | lia].
    + destruct (IH _ _ _ _ H) as [stmts [A [B C]]].
      exists (SelectCountWhereFile (tableName r) (file m) :: stmts).
      rewrite A, L1, <- app_assoc. simpl. split; [reflexivity|].
      split; [constructor; assumption | lia].
Qed.

(** With a count that is not positive the loop of [Down] does what it does
    with the count 0. *)
Lemma down_items_nonpositive_agree r n ms : forall a tx,
  is_int n -> n <= 0 ->
  down_items r n 0 ms a tx = down_items r 0 0 ms a tx.
Proof.
  induction ms as [|m ms IH]; intros a tx Hi Hn; simpl; [reflexivity|].
  destruct (isMigrationApplied r tx (file m)) as [tx1 [|]]; simpl.
  - rewrite int_sub_0 by exact Hi. destruct (Z.leb_spec n 0); [reflexivity | lia].
  - apply IH; assumption.
Qed.

(** How a transaction hands on the outcome of its body. *)
Lemma Transactional_cases (A : Type) (f : Conn Data -> Conn Data * result A) c :
  let (tx, res) := f c in
  Transactional f c = (match res with Ok _ => tx | _ => rollback c tx end, res).
Proof. unfold Transactional. destruct (f c) as [tx [a|e|p]]; reflexivity. Qed.

End Logs.

(* ================================================================== *)
(** ** What a batch changes, returns and issues *)

Section BatchEffects.

Variable Data : Type.
Implicit Types (r : Runner Data) (c : Conn Data) (f : string).

Lemma In_existsb_eqb f (fs : list string) :
  existsb (String.eqb f) fs = true <-> In f fs.
Proof.
  rewrite existsb_exists. split.
  - intros [x [Hx E]]. apply String.eqb_eq in E. subst x. exact Hx.
  - intros H. exists f. split; [exact H | apply String.eqb_refl].
Qed.

Lemma count_file_NoDup_In f (rows : list Row) :
  NoDup (map row_file rows) -> In f (map row_file rows) -> count_file f rows = 1.
Proof.
  intros Hn Hi. pose proof (@pk_ok_count f rows Hn).
  pose proof (count_file_nonneg f rows).
  destruct (Z.eq_dec (count_file f rows) 0) as [E|E]; [|lia].
  apply count_file_0_notin in E. contradiction.
Qed.

(** X1: [Up] never removes an entry from the runner's ledger: whatever the
    outcome, no identifier has fewer entries after the call than before; and
    when [Up] does not return its list (an error, or a panic), the contents
    are what they were. *)
Theorem Up_never_removes_an_entry r c c' (res : result (list string)) :
  Up r c = (c', res) ->
  (forall f, entries r c f <= entries r c' f) /\
  (failed res -> db c' = db c).
Proof.
  intros H. unfold Up in H.
  pose proof (Transactional_cases (up_loop r (Items (migrationsList r)) []) c) as T.
  destruct (up_loop r (Items (migrationsList r)) [] c) as [tx res'] eqn:E.
  rewrite T in H. inversion H; subst. clear H T.
  destruct res as [out|e|p].
  - apply up_loop_ledger in E. destruct E as [_ E2].
    split; [|intros F; exfalso; exact (F out eq_refl)].
    intros f. unfold entries. destruct (ledger_of r c) as [rows|].
    + destruct E2 as [new [A _]]. rewrite A, count_file_app.
      pose proof (count_file_nonneg f new). lia.
    + destruct E2 as [A _]. rewrite A. lia.
  - split; [intros f; apply Z.le_refl | reflexivity].
  - split; [intros f; apply Z.le_refl | reflexivity].
Qed.

(** X2: The list [Up] returns names exactly the identifiers it has recorded: each
    belongs to a unit of the list, had no entry before the call and has one
    after it; every other identifier has as many entries as before. *)
Theorem Up_returns_what_it_recorded r c c' (out : list string) :
  Up r c = (c', Ok out) ->
  (forall f, In f out ->
             In f (map (@file Data) (migrationsList r)) /\
             entries r c f = 0 /\ entries r c' f = 1) /\
  (forall f, ~ In f out -> entries r c' f = entries r c f).
Proof.
  intros H. apply Transactional_ok in H. apply up_loop_ledger in H.
  destruct H as [_ Hg]. unfold entries. destruct (ledger_of r c) as [rows|].
  - destruct Hg as [new [A [B [C D]]]]. rewrite (D _ eq_refl), A. simpl. split.
    + intros f Hf. destruct (C f Hf) as [C1 C2]. split; [exact C2|]. split; [exact C1|].
      rewrite count_file_app, C1, (count_file_NoDup_In f new B Hf). reflexivity.
    + intros f Hf. apply count_file_0_notin in Hf. rewrite count_file_app. lia.
  - destruct Hg as [A D]. rewrite (D _ eq_refl), A. split; [intros f []|reflexivity].
Qed.

(** X3: [Down] never adds an entry to the runner's ledger: whatever the
    outcome, no identifier has more entries after the call than before; and
    when [Down] does not return its list (an error, or a panic), the contents
    are what they were. *)
Theorem Down_never_adds_an_entry r (n : Z) c c' (res : result (list string)) :
  Down r n c = (c', res) ->
  (forall f, entries r c' f <= entries r c f) /\
  (failed res -> db c' = db c).
Proof.
  intros H. rewrite Down_items in H.
  pose proof (Transactional_cases (down_items r n 0 (rev (migrationsList r)) []) c) as T.
  destruct (down_items r n 0 (rev (migrationsList r)) [] c) as [tx res'] eqn:E.
  rewrite T in H. inversion H; subst. clear H T.
  destruct res as [out|e|p].
  - apply down_items_ledger in E. destruct E as [_ E2].
    split; [|intros F; exfalso; exact (F out eq_refl)].
    intros f. unfold entries. destruct (ledger_of r c) as [rows|].
    + destruct E2 as [fs [A _]]. rewrite A, count_file_remaining.
      pose proof (count_file_nonneg f rows). destruct (existsb _ fs); lia.
    + destruct E2 as [A _]. rewrite A. lia.
  - split; [intros f; apply Z.le_refl | reflexivity].
  - split; [intros f; apply Z.le_refl | reflexivity].
Qed.

(** X4: The list [Down] returns names exactly the identifiers whose entry it has
    removed: they are pairwise distinct, each belongs to a unit of the list,
    had its entry before the call and has none after it; every other
    identifier has as many entries as before. *)
Theorem Down_returns_what_it_removed r (n : Z) c c' (out : list string) :
  Down r n c = (c', Ok out) ->
  NoDup out /\
  (forall f, In f out ->
             In f (map (@file Data) (migrationsList r)) /\
             entries r c f = 1 /\ entries r c' f = 0) /\
  (forall f, ~ In f out -> entries r c' f = entries r c f).
Proof.
  intros H. rewrite Down_items in H. apply Transactional_ok in H.
  apply down_items_ledger in H. destruct H as [_ Hg]. unfold entries.
  destruct (ledger_of r c) as [rows|].
  - destruct Hg as [fs [A [B [C D]]]]. rewrite (D _ eq_refl), A. simpl.
    split; [exact B|]. split.
    + intros f Hf. destruct (C f Hf) as [C1 C2]. split.
      * rewrite map_rev in C2. apply in_rev in C2. exact C2.
      * split; [exact C1|]. rewrite count_file_remaining.
        apply In_existsb_eqb in Hf. rewrite Hf. reflexivity.
    + intros f Hf. rewrite count_file_remaining.
      destruct (existsb (String.eqb f) fs) eqn:Ex; [|reflexivity].
      apply In_existsb_eqb in Ex. contradiction.
  - destruct Hg as [A D]. rewrite (D _ eq_refl), A.
    split; [constructor|]. split; [intros f []|reflexivity].
Qed.

(** X5: The runner does not panic of its own: a panic of [Up] or [Down] is the
    panic of a forward or backward operation of a unit of the list.  In
    particular the index of [Down]'s loop stays within the list. *)
Theorem batches_panic_only_with_a_unit r (n : Z) c c' (p : string) :
  (Up r c = (c', Panic p) ->
   exists m d, In m (migrationsList r) /\ up m d = Panic p) /\
  (Down r n c = (c', Panic p) ->
   exists m d, In m (migrationsList r) /\ down m d = Panic p).
Proof.
  split; intros H.
  - unfold Up in H.
    pose proof (Transactional_cases (up_loop r (Items (migrationsList r)) []) c) as T.
    destruct (up_loop r (Items (migrationsList r)) [] c) as [tx res'] eqn:E.
    rewrite T in H. inversion H; subst. eapply up_loop_panic. exact E.
  - rewrite Down_items in H.
    pose proof (Transactional_cases (down_items r n 0 (rev (migrationsList r)) []) c) as T.
    destruct (down_items r n 0 (rev (migrationsList r)) [] c) as [tx res'] eqn:E.
    rewrite T in H. inversion H; subst.
    destruct (down_items_panic _ _ _ _ _ _ E) as [m [d [A B]]].
    exists m, d. split; [apply in_rev; exact A | exact B].
Qed.

(** X6: Whatever is skipped or fails on the way, the identifiers [Up] returns are
    in registration order, and those [Down] returns in reverse registration
    order. *)
Theorem batches_follow_registration_order r (n : Z) c c' (out : list string) :
  (Up r c = (c', Ok out) -> subseq out (map (@file Data) (migrationsList r))) /\
  (Down r n c = (c', Ok out) ->
   subseq out (rev (map (@file Data) (migrationsList r)))).
Proof.
  split; intros H.
  - apply Transactional_ok in H. apply up_loop_order in H.
    destruct H as [new [A B]]. subst out. exact B.
  - rewrite Down_items in H. apply Transactional_ok in H. apply down_items_order in H.
    destruct H as [new [A B]]. subst out. rewrite <- map_rev. exact B.
Qed.

(** X7: of its own, the runner issues in [Up] nothing but existence queries
    and inserts on its table, and in [Down] nothing but existence queries and
    deletes on it: at most two statements for each unit of the list, whatever
    the outcome.  The statements in question are those of [Up] and [Down]
    themselves, which [log] records; what a unit sends on the transaction is
    part of its operation on the data and is not among them. *)
Theorem batches_issue_only_their_statements r (n : Z) c :
  (exists stmts,
     log (fst (Up r c)) = log c ++ stmts /\ Forall (up_stmt r) stmts /\
     (List.length stmts <= 2 * List.length (migrationsList r))%nat) /\
  (exists stmts,
     log (fst (Down r n c)) = log c ++ stmts /\ Forall (down_stmt r) stmts /\
     (List.length stmts <= 2 * List.length (migrationsList r))%nat).
Proof.
  split.
  - unfold Up.
    pose proof (Transactional_cases (up_loop r (Items (migrationsList r)) []) c) as T.
    destruct (up_loop r (Items (migrationsList r)) [] c) as [tx res'] eqn:E.
    rewrite T. apply up_loop_log in E. destruct res'; exact E.
  - rewrite Down_items.
    pose proof (Transactional_cases (down_items r n 0 (rev (migrationsList r)) []) c) as T.
    destruct (down_items r n 0 (rev (migrationsList r)) [] c) as [tx res'] eqn:E.
    rewrite T. apply down_items_log in E. rewrite length_rev in E.
    destruct res'; exact E.
Qed.

(** X8: [Down] looks at the sign of its count only: a positive count does what
    the count 1 does, any other what the count 0 does. *)
Theorem Down_looks_at_the_sign_only r (n : Z) c :
  is_int n -> Down r n c = Down r (if 0 <? n then 1 else 0) c.
Proof.
  intros Hi. rewrite !Down_items. unfold Transactional.
  destruct (Z.ltb_spec 0 n).
  - rewrite (@down_items_positive_agree Data r n 1); try assumption; try lia.
    + reflexivity.
    + unfold is_int, int_min, int_max. lia.
  - rewrite (@down_items_nonpositive_agree Data r n); try assumption. reflexivity.
Qed.

End BatchEffects.

(* ================================================================== *)
(** ** The ledger helpers, construction and the ledger's key *)

Section LedgerFacts.

Variable Data : Type.
Implicit Types (r : Runner Data) (c tx : Conn Data) (f : string) (rows : list Row)
  (l : MigrationsList Data).

(** X9: [isMigrationApplied] never answers yes without an entry: its answer is
    [true] only when the ledger holds exactly one entry for the identifier;
    it is the ledger's answer when the query is not made to fail; and the
    query changes nothing in the database. *)
Theorem isMigrationApplied_never_invents r tx f :
  (snd (isMigrationApplied r tx f) = true -> entries r tx f = 1) /\
  (hd None (faults tx) = None ->
   snd (isMigrationApplied r tx f) = (entries r tx f =? 1)) /\
  db (fst (isMigrationApplied r tx f)) = db tx.
Proof.
  split; [|split].
  - intros H. apply isMigrationApplied_true in H. apply Z.eqb_eq. exact H.
  - apply isMigrationApplied_answer.
  - rewrite isMigrationApplied_conn. reflexivity.
Qed.

(** X10: Recording and looking up: after [saveAppliedMigration] has succeeded the
    identifier has exactly one entry, stamped with the clock's reading, the
    existence query answers yes, and recording it again is refused; after
    [saveRevertedMigration] has succeeded the identifier has no entry, the
    query answers no, and recording it anew succeeds. *)
Theorem record_then_look_up r tx tx2 f :
  hd None (faults tx2) = None ->
  (saveAppliedMigration r tx f = (tx2, None) ->
   entries r tx2 f = 1 /\
   (exists rows, ledger_of r tx2 = Some rows /\
                 In {| row_file := f; row_applied := now tx |} rows) /\
   snd (isMigrationApplied r tx2 f) = true /\
   snd (saveAppliedMigration r tx2 f) = Some (unique_violation (tableName r))) /\
  (saveRevertedMigration r tx f = (tx2, None) ->
   entries r tx2 f = 0 /\
   snd (isMigrationApplied r tx2 f) = false /\
   snd (saveAppliedMigration r tx2 f) = None).
Proof.
  intros Hh. split; intros H.
  - assert (Hrow : exists rows,
               ledger_of r tx = Some rows /\ count_file f rows = 0 /\
               db tx2 = set_table (tableName r)
                          (rows ++ [{| row_file := f; row_applied := now tx |}]) (db tx)).
    { revert H. unfold saveAppliedMigration, time_Now_Unix, Execute, issued, ledger_of.
      destruct (later tx); simpl;
        destruct (faults tx) as [|[e|] fs]; simpl; try discriminate;
        destruct (tables (db tx) (tableName r)) as [rows|]; simpl; try discriminate;
        destruct (Z.ltb_spec 0 (count_file f rows)) as [Hlt|Hge]; simpl;
        try discriminate;
        intros Hs; inversion Hs; subst; simpl; exists rows;
        pose proof (count_file_nonneg f rows);
        (split; [reflexivity|]); (split; [lia | reflexivity]). }
    destruct Hrow as [rows [Hl [Hc Hd]]].
    assert (Hl2 : ledger_of r tx2
                  = Some (rows ++ [{| row_file := f; row_applied := now tx |}])).
    { unfold ledger_of. rewrite Hd. apply set_table_same. }
    assert (He : entries r tx2 f = 1).
    { unfold entries. rewrite Hl2, count_file_app, count_file_one, String.eqb_refl. lia. }
    split; [exact He|]. split.
    { eexists. split; [exact Hl2|]. apply in_or_app. right. left. reflexivity. }
    split.
    { rewrite isMigrationApplied_answer by exact Hh. unfold recorded. rewrite He.
      reflexivity. }
    unfold saveAppliedMigration, Execute.
    destruct (time_Now_Unix_env tx2) as [Hd' [Hf' _]].
    destruct (time_Now_Unix tx2) as [tx3 unix]. simpl in Hd', Hf'.
    rewrite Hd', Hf'. unfold run_stmt. unfold ledger_of in Hl2. rewrite Hl2.
    unfold entries, ledger_of in He. rewrite Hl2 in He. rewrite He.
    destruct (faults tx2) as [|[e|] fs]; simpl in *; try discriminate; reflexivity.
  - pose proof (saveRevertedMigration_cases r tx f) as S. rewrite H in S.
    destruct S as [_ [_ [rows [Hl Hd]]]].
    assert (Hl2 : ledger_of r tx2 = Some (delete_file f rows)).
    { unfold ledger_of. rewrite Hd. apply set_table_same. }
    assert (He : entries r tx2 f = 0).
    { unfold entries. rewrite Hl2. apply count_file_delete_same. }
    split; [exact He|]. split.
    { rewrite isMigrationApplied_answer by exact Hh. unfold recorded. rewrite He.
      reflexivity. }
    unfold entries in He. rewrite Hl2 in He.
    exact (saveAppliedMigration_succeeds r tx2 f Hh Hl2 He).
Qed.

(** X11: [NewRunner] leaves everything in place: the application data and every
    other table are untouched, an existing ledger table keeps its rows, and a
    missing one is created empty.  The runner it returns has the list it was
    given and the table ["_migrations"]. *)
Theorem NewRunner_creates_or_keeps_the_ledger c l c0 r :
  NewRunner c l = (c0, Ok r) ->
  migrationsList r = l /\ tableName r = migrationsTable /\
  conn_data c0 = conn_data c /\
  (forall t, t <> migrationsTable -> tables (db c0) t = tables (db c) t) /\
  ledger_of r c0 = Some (match tables (db c) migrationsTable with
                         | Some rows => rows
                         | None => []
                         end).
Proof.
  unfold NewRunner, createMigrationsTable, Execute, issued, run_stmt, ledger_of, conn_data.
  simpl. intros H.
  destruct (faults c) as [|[e|] fs]; simpl in H; try discriminate;
    destruct (tables (db c) migrationsTable) as [rows|] eqn:Et; simpl in H;
    inversion H; subst; simpl; rewrite ?Et;
    (split; [reflexivity|]); (split; [reflexivity|]); (split; [reflexivity|]);
    (split; [|reflexivity]); intros t Ht; try reflexivity;
    destruct (String.eqb_spec t migrationsTable); try contradiction; reflexivity.
Qed.

(** X12: On a database that has no ledger table yet, with no statement failing,
    distinct identifiers and forward operations that go through, construction
    followed by [Up] applies every unit: [Up] returns the identifiers in
    registration order and the ledger holds exactly their entries, in that
    order. *)
Theorem NewRunner_then_Up_on_a_new_database c l (d1 : Data) :
  tables (db c) migrationsTable = None ->
  faults c = [] ->
  NoDup (map (@file Data) l) ->
  run_ops (map (@up Data) l) (conn_data c) = Ok d1 ->
  exists c0 r c1 rows,
    NewRunner c l = (c0, Ok r) /\
    Up r c0 = (c1, Ok (map (@file Data) l)) /\
    ledger_of r c1 = Some rows /\ map row_file rows = map (@file Data) l /\
    conn_data c1 = d1.
Proof.
  intros Ht Hf Hnd Hrun.
  destruct (NewRunner c l) as [c0 res] eqn:En.
  set (r := {| migrationsList := l; tableName := migrationsTable |}).
  assert (Hres : res = Ok r /\ faults c0 = [] /\ conn_data c0 = conn_data c /\
                 ledger_of r c0 = Some []).
  { revert En. unfold NewRunner, createMigrationsTable, Execute, issued, run_stmt.
    simpl. rewrite Hf. simpl. rewrite Ht. simpl.
    intros En. inversion En; subst. repeat split; reflexivity. }
  destruct Hres as [-> [Hf0 [Hd Hl]]].
  destruct (@up_loop_applies Data r l [] c0 [] d1 Hf0 Hl Hnd) as [c1 [new [A [B [C [D _]]]]]].
  - intros m _. reflexivity.
  - rewrite Hd. exact Hrun.
  - exists c0, r, c1, new. split; [reflexivity|]. split.
    + unfold Up, Transactional, Items. simpl. simpl in A. rewrite A. reflexivity.
    + split; [exact B|]. split; [exact C | exact D].
Qed.

(** X13: Without its ledger table the runner applies and reverts nothing: [Down]
    returns the empty list and leaves the contents as they were, and [Up]
    returns a list only when there is no unit to apply. *)
Theorem without_the_ledger_table r (n : Z) c :
  ledger_of r c = None ->
  (exists c', Down r n c = (c', Ok []) /\ db c' = db c) /\
  (forall c' out, Up r c = (c', Ok out) -> migrationsList r = [] /\ out = []).
Proof.
  intros Hl. split.
  - rewrite Down_items. unfold Transactional.
    assert (Hskip : forall ms a tx,
              ledger_of r tx = None ->
              exists tx', down_items r n 0 ms a tx = (tx', Ok a) /\ db tx' = db tx).
    { induction ms as [|m ms IH]; intros a tx Ht; simpl.
      - exists tx. auto.
      - destruct (isMigrationApplied r tx (file m)) as [tx1 b] eqn:Eq.
        pose proof (isMigrationApplied_true r tx (file m)) as Hb.
        rewrite Eq in Hb. simpl in Hb.
        apply isMigrationApplied_db in Eq. destruct Eq as [Hd1 _].
        destruct b.
        + specialize (Hb eq_refl). unfold recorded, entries in Hb.
          rewrite Ht in Hb. discriminate.
        + simpl. destruct (IH a tx1) as [tx' [A B]].
          * unfold ledger_of. rewrite Hd1. exact Ht.
          * exists tx'. rewrite A, B. auto. }
    destruct (Hskip (rev (migrationsList r)) [] c Hl) as [tx' [A B]].
    rewrite A. exists tx'. auto.
  - intros c' out H. apply Transactional_ok in H. unfold Items in H.
    destruct (migrationsList r) as [|m l].
    + simpl in H. inversion H. auto.
    + exfalso. simpl in H.
      destruct (isMigrationApplied r c (file m)) as [tx1 b] eqn:Eq.
      pose proof (isMigrationApplied_true r c (file m)) as Hb.
      rewrite Eq in Hb. simpl in Hb.
      apply isMigrationApplied_db in Eq. destruct Eq as [Hd1 _].
      destruct b.
      * specialize (Hb eq_refl). unfold recorded, entries in Hb.
        rewrite Hl in Hb. discriminate.
      * destruct (up m (conn_data tx1)) as [d|e|p]; try discriminate.
        pose proof (saveAppliedMigration_cases r (with_data d tx1) (file m)) as S.
        destruct (saveAppliedMigration r (with_data d tx1) (file m)) as [tx2 [e|]];
          try discriminate.
        destruct S as [_ [_ [rows [ts [S1 _]]]]].
        unfold ledger_of in S1, Hl. simpl in S1. rewrite Hd1, Hl in S1. discriminate.
Qed.

(** X14: [Down] keeps the primary key of the ledger table: from a table without
    two entries for one identifier it leaves, committed or rolled back, a
    table without two entries for one identifier. *)
Theorem Down_keeps_the_primary_key r (n : Z) c c' rows (res : result (list string)) :
  ledger_of r c = Some rows -> pk_ok rows ->
  Down r n c = (c', res) ->
  exists rows', ledger_of r c' = Some rows' /\ pk_ok rows' /\
                (forall x, In x rows' -> In x rows).
Proof.
  intros Hl Hp H. rewrite Down_items in H.
  pose proof (Transactional_cases (down_items r n 0 (rev (migrationsList r)) []) c) as T.
  destruct (down_items r n 0 (rev (migrationsList r)) [] c) as [tx res'] eqn:E.
  rewrite T in H. inversion H; subst. clear H T.
  apply down_items_ledger in E. destruct E as [_ Hg]. rewrite Hl in Hg.
  destruct Hg as [fs [A _]].
  assert (Hrem : pk_ok (remaining fs rows) /\
                 forall x, In x (remaining fs rows) -> In x rows).
  { split.
    - clear A Hl. unfold pk_ok, remaining in *.
      induction rows as [|x rows IH]; simpl; [constructor|].
      inversion Hp as [|? ? Hx Hr]; subst.
      destruct (negb (existsb (String.eqb (row_file x)) fs)); simpl.
      + constructor; [|apply IH; exact Hr].
        intros Hin. apply Hx. apply in_map_iff in Hin. destruct Hin as [y [Ey Hy]].
        apply filter_In in Hy. apply in_map_iff. exists y. tauto.
      + apply IH. exact Hr.
    - intros x Hx. unfold remaining in Hx. apply filter_In in Hx. tauto. }
  destruct res as [out|e|p].
  - exists (remaining fs rows). split; [exact A|]. exact Hrem.
  - exists rows. split; [exact Hl|]. split; [exact Hp | auto].
  - exists rows. split; [exact Hl|]. split; [exact Hp | auto].
Qed.

End LedgerFacts.

(* ================================================================== *)
(** ** What [Run] reports and what it leaves alone *)

Section CommandFacts.

Variable Data : Type.
Variable ToInt : string -> Z.
Variable Quote : string -> string.
Variable createFile : list string -> Term -> Term * result unit.
Implicit Types (r : Runner Data) (c : Conn Data) (t : Term).

Lemma print_each_lines (verb : string) (files : list string) : forall t,
  answers (print_each verb files t) = answers t /\
  console (print_each verb files t)
  = console t ++ map (fun f => Green (verb ++ " " ++ f)) files.
Proof.
  unfold print_each. induction files as [|f files IH]; intros t; cbn [fold_left map].
  - rewrite app_nil_r. auto.
  - destruct (IH (print (Green (verb ++ " " ++ f)) t)) as [A B].
    rewrite A, B. simpl. rewrite <- app_assoc. auto.
Qed.

(** X15: The command ["up"], also taken when there is no argument, calls [Up] on
    the connection it was given and returns what [Up] returned; it asks
    nothing and prints the outcome: the error, or one line
    ["Applied <file>"] for each migration applied, in order, or
    ["No new migrations to apply."]. *)
Theorem Run_up_reports_Up r args t c :
  hd "up"%string args = "up"%string ->
  snd (fst (Run ToInt Quote createFile r args t c)) = fst (Up r c) /\
  snd (Run ToInt Quote createFile r args t c) = reported (snd (Up r c)) /\
  answers (fst (fst (Run ToInt Quote createFile r args t c))) = answers t /\
  console (fst (fst (Run ToInt Quote createFile r args t c)))
  = console t ++ report_lines "Applied" "No new migrations to apply." (snd (Up r c)).
Proof.
  intros Hcmd. unfold Run.
  assert (Hc : match args with [] => "up"%string | a :: _ => a end = "up"%string).
  { destruct args; [reflexivity | exact Hcmd]. }
  rewrite Hc. simpl. destruct (Up r c) as [c1 [[|f fs]|e|p]]; simpl.
  - auto.
  - destruct (print_each_lines "Applied" fs (print (Green ("Applied " ++ f)) t)) as [A B].
    unfold print_each in *. simpl in *. rewrite A, B. simpl.
    rewrite <- app_assoc. auto.
  - auto.
  - rewrite app_nil_r. auto.
Qed.

(** X16: The command ["down"], once the prompt is answered yes: [Run] has shown
    the prompt with the count it is about to pass, consumed the answer, and
    printed the outcome of [Down]: the error, or one line
    ["Reverted <file>"] for each migration reverted, in order, or
    ["No migrations to revert."]. *)
Theorem Run_down_reports_Down r args t c (rest : list bool) :
  hd ""%string args = "down"%string ->
  answers t = true :: rest ->
  let n := toRevertCount_of ToInt r args in
  answers (fst (fst (Run ToInt Quote createFile r args t c))) = rest /\
  console (fst (fst (Run ToInt Quote createFile r args t c)))
  = console t
    ++ [Asked ("Do you really want to revert the last " ++ Itoa n
                 ++ " applied migration(s)?")]
    ++ report_lines "Reverted" "No migrations to revert." (snd (Down r n c)).
Proof.
  intros Hcmd Hans n. unfold Run.
  assert (Hc : match args with [] => "up"%string | a :: _ => a end = "down"%string).
  { destruct args; simpl in Hcmd; [discriminate | exact Hcmd]. }
  rewrite Hc. simpl. unfold survey_AskOne. rewrite Hans. simpl. fold n.
  destruct (Down r n c) as [c1 [[|f fs]|e|p]]; simpl.
  - rewrite <- app_assoc. auto.
  - match goal with
    | |- context [print (Green ?s) ?t0] =>
        destruct (print_each_lines "Reverted" fs (print (Green s) t0)) as [A B]
    end.
    unfold print_each in *. simpl in *. rewrite A, B. simpl.
    rewrite <- !app_assoc. auto.
  - rewrite <- app_assoc. auto.
  - auto.
Qed.

(** X17: [Run] reaches the database through [Up] and [Down] only: with a command
    other than ["up"], and for ["down"] unless the prompt is answered yes,
    the connection is returned as it was given (not even a statement is
    issued on it). *)
Theorem Run_leaves_the_database_alone r args t c :
  hd "up"%string args <> "up"%string ->
  (hd "up"%string args = "down"%string -> hd false (answers t) = false) ->
  snd (fst (Run ToInt Quote createFile r args t c)) = c.
Proof.
  intros Hup Hdown. unfold Run.
  change (match args with [] => "up"%string | a :: _ => a end)
    with (hd "up"%string args) in *.
  destruct (String.eqb_spec (hd "up"%string args) "up") as [E|_]; [contradiction|].
  destruct (String.eqb_spec (hd "up"%string args) "down") as [E|_].
  - specialize (Hdown E). unfold survey_AskOne.
    destruct (answers t) as [|a rest]; simpl in *; [reflexivity|].
    subst a. reflexivity.
  - destruct (String.eqb (hd "up"%string args) "create"); [|reflexivity].
    destruct (List.length args <? 2)%nat; [reflexivity|].
    destruct (createFile args t). reflexivity.
Qed.

End CommandFacts.

Section Pending.

Variable Data : Type.
Implicit Types (r : Runner Data) (c tx : Conn Data) (f : string) (rows : list Row)
  (l : list (Migration Data)) (m : Migration Data).

Lemma pk_ok_append f (ts : Z) rows :
  pk_ok rows -> count_file f rows = 0 ->
  pk_ok (rows ++ [{| row_file := f; row_applied := ts |}]).
Proof.
  unfold pk_ok. intros H H0. apply count_file_0_notin in H0.
  rewrite map_app. simpl. apply NoDup_app.
  - exact H.
  - repeat constructor. simpl. tauto.
  - intros x Hx [E|[]]. subst x. tauto.
Qed.

Lemma up_loop_pending r l : forall a tx rows (d1 : Data),
  faults tx = [] ->
  ledger_of r tx = Some rows ->
  pk_ok rows ->
  NoDup (map (@file Data) l) ->
  run_ops (map (@up Data) (filter (fun m => negb (on_ledger rows m)) l)) (conn_data tx)
  = Ok d1 ->
  exists tx' new,
    up_loop r l a tx
    = (tx', Ok (a ++ map (@file Data) (filter (fun m => negb (on_ledger rows m)) l))) /\
    ledger_of r tx' = Some (rows ++ new) /\
    map row_file new = map (@file Data) (filter (fun m => negb (on_ledger rows m)) l) /\
    conn_data tx' = d1 /\ faults tx' = [].
Proof.
  induction l as [|m l IH]; intros a tx rows d1 Hf Hl Hp Hnd Hrun;
    cbn [map filter up_loop run_ops] in *.
  - exists tx, []. rewrite !app_nil_r. inversion Hrun. auto.
  - inversion Hnd as [|? ? Hm Hnd']; subst.
    destruct (isMigrationApplied r tx (file m)) as [tx1 b] eqn:Eq.
    pose proof (isMigrationApplied_answer r tx (file m)) as Ha.
    rewrite Eq, Hf in Ha. simpl in Ha. specialize (Ha eq_refl).
    apply isMigrationApplied_db in Eq. destruct Eq as [Hd1 Hf1].
    rewrite Hf in Hf1. simpl in Hf1.
    assert (Hb : b = on_ledger rows m).
    { rewrite Ha. unfold recorded, entries, on_ledger. rewrite Hl. reflexivity. }
    assert (Hl1 : ledger_of r tx1 = Some rows) by (unfold ledger_of; rewrite Hd1; exact Hl).
    assert (Hc1 : conn_data tx1 = conn_data tx) by (unfold conn_data; rewrite Hd1; reflexivity).
    clear Ha. destruct (on_ledger rows m) eqn:Eo; subst b; cbn [negb map run_ops] in *.
    + destruct (IH a tx1 rows d1 Hf1 Hl1 Hp Hnd') as [tx' [new [A [B [C [D E]]]]]].
      * rewrite Hc1. exact Hrun.
      * exists tx', new. auto.
    + assert (H0 : count_file (file m) rows = 0).
      { unfold on_ledger in Eo. apply Z.eqb_neq in Eo.
        pose proof (pk_ok_count (file m) Hp). pose proof (count_file_nonneg (file m) rows).
        lia. }
      rewrite Hc1. destruct (up m (conn_data tx)) as [d|e|p]; try discriminate.
      pose proof (saveAppliedMigration_cases r (with_data d tx1) (file m)) as S.
      pose proof (saveAppliedMigration_succeeds r (with_data d tx1) (file m) (rows:=rows)) as S'.
      destruct (saveAppliedMigration r (with_data d tx1) (file m)) as [tx2 err].
      simpl in S'. rewrite Hf1 in S'. specialize (S' eq_refl Hl1 H0). subst err.
      destruct S as [Sf [_ [rows' [ts [S1 [_ S2]]]]]].
      change (ledger_of r (with_data d tx1)) with (ledger_of r tx1) in S1.
      rewrite Hl1 in S1. inversion S1; subst rows'. clear S1.
      simpl in Sf. rewrite Hf1 in Sf. simpl in Sf.
      assert (Hfil : filter (fun m' => negb (on_ledger
                        (rows ++ [{| row_file := file m; row_applied := ts |}]) m')) l
                     = filter (fun m' => negb (on_ledger rows m')) l).
      { apply filter_ext_in. intros m' Hin. unfold on_ledger.
        rewrite count_file_app, count_file_one.
        destruct (String.eqb_spec (file m) (file m')) as [E|E]; [|rewrite Z.add_0_r; reflexivity].
        exfalso. apply Hm. rewrite E. apply in_map. exact Hin. }
      destruct (IH (a ++ [file m]) tx2
                  (rows ++ [{| row_file := file m; row_applied := ts |}]) d1 Sf)
        as [tx' [new [A [B [C [D E]]]]]].
      * unfold ledger_of. rewrite S2. apply set_table_same.
      * apply pk_ok_append; assumption.
      * exact Hnd'.
      * rewrite Hfil. unfold conn_data. rewrite S2. simpl. exact Hrun.
      * rewrite Hfil in A, C.
        exists tx', ({| row_file := file m; row_applied := ts |} :: new).
        rewrite A, B, <- !app_assoc. simpl. rewrite C. auto.
Qed.

(** X18: With no statement failing, a ledger that respects its key, distinct
    identifiers and forward operations that go through, [Up] applies exactly
    the units that have no entry, in registration order: it returns their
    identifiers in that order, has run their operations one after the other,
    and has appended their entries to the ledger in that order, the entries
    already there being kept. *)
Theorem Up_applies_exactly_the_pending_units r c rows (d1 : Data) :
  faults c = [] ->
  ledger_of r c = Some rows ->
  pk_ok rows ->
  NoDup (map (@file Data) (migrationsList r)) ->
  run_ops (map (@up Data)
             (filter (fun m => negb (on_ledger rows m)) (migrationsList r)))
    (conn_data c) = Ok d1 ->
  exists c' new,
    Up r c = (c', Ok (map (@file Data)
                        (filter (fun m => negb (on_ledger rows m)) (migrationsList r)))) /\
    ledger_of r c' = Some (rows ++ new) /\
    map row_file new
    = map (@file Data) (filter (fun m => negb (on_ledger rows m)) (migrationsList r)) /\
    conn_data c' = d1.
Proof.
  intros Hf Hl Hp Hnd Hrun.
  destruct (@up_loop_pending r (migrationsList r) [] c rows d1 Hf Hl Hp Hnd Hrun)
    as [c' [new [A [B [C [D _]]]]]].
  exists c', new. unfold Up, Transactional, Items. rewrite A. simpl. auto.
Qed.

End Pending.

(* ================================================================== *)
(** ** The further properties on the concrete store *)

Import Cases.

(** A pair is known by its first component and the value of its second. *)
Lemma pair_eq_snd (A B : Type) (p : A * B) (b : B) : snd p = b -> p = (fst p, b).
Proof. destruct p. simpl. intros ->. reflexivity. Qed.

Lemma Up_never_removes_an_entry_witness :
  (forall f, entries (runner_of abc) (booted abc) f
             <= entries (runner_of abc) (migrated abc) f) /\
  (failed (Ok ["a"; "b"; "c"]%string) -> db (migrated abc) = db (booted abc)).
Proof.
  apply (@Up_never_removes_an_entry Schema (runner_of abc) (booted abc) (migrated abc)
           (Ok ["a"; "b"; "c"]%string)).
  apply (pair_eq_snd (Up (runner_of abc) (booted abc))). vm_compute. reflexivity.
Defined.

Lemma Up_returns_what_it_recorded_witness :
  (forall f, In f ["a"; "b"; "c"]%string ->
             In f (map (@file Schema) abc) /\
             entries (runner_of abc) (booted abc) f = 0 /\
             entries (runner_of abc) (migrated abc) f = 1) /\
  (forall f, ~ In f ["a"; "b"; "c"]%string ->
             entries (runner_of abc) (migrated abc) f
             = entries (runner_of abc) (booted abc) f).
Proof.
  apply (@Up_returns_what_it_recorded Schema (runner_of abc) (booted abc) (migrated abc)
           ["a"; "b"; "c"]%string).
  apply (pair_eq_snd (Up (runner_of abc) (booted abc))). vm_compute. reflexivity.
Defined.

Lemma Down_never_adds_an_entry_witness :
  (forall f, entries (runner_of abc) (fst (Down (runner_of abc) 1 (migrated abc))) f
             <= entries (runner_of abc) (migrated abc) f) /\
  (failed (Ok ["c"; "b"; "a"]%string) ->
   db (fst (Down (runner_of abc) 1 (migrated abc))) = db (migrated abc)).
Proof.
  apply (@Down_never_adds_an_entry Schema (runner_of abc) 1 (migrated abc)
           (fst (Down (runner_of abc) 1 (migrated abc))) (Ok ["c"; "b"; "a"]%string)).
  apply pair_eq_snd. vm_compute. reflexivity.
Defined.

Lemma Down_returns_what_it_removed_witness :
  NoDup ["c"; "b"; "a"]%string /\
  (forall f, In f ["c"; "b"; "a"]%string ->
             In f (map (@file Schema) abc) /\
             entries (runner_of abc) (migrated abc) f = 1 /\
             entries (runner_of abc) (fst (Down (runner_of abc) 1 (migrated abc))) f = 0) /\
  (forall f, ~ In f ["c"; "b"; "a"]%string ->
             entries (runner_of abc) (fst (Down (runner_of abc) 1 (migrated abc))) f
             = entries (runner_of abc) (migrated abc) f).
Proof.
  apply (@Down_returns_what_it_removed Schema (runner_of abc) 1 (migrated abc)
           (fst (Down (runner_of abc) 1 (migrated abc))) ["c"; "b"; "a"]%string).
  apply pair_eq_snd. vm_compute. reflexivity.
Defined.

(** With "a" and "b" applied, reverting "b" panics: [Down] panics with it. *)
Lemma batches_panic_only_with_a_unit_witness :
  exists m d, In m a_then_panicky /\ down m d = Panic "boom".
Proof.
  apply (proj2 (@batches_panic_only_with_a_unit Schema (runner_of a_then_panicky) 1
                  (migrated a_then_panicky)
                  (fst (Down (runner_of a_then_panicky) 1 (migrated a_then_panicky)))
                  "boom")).
  apply pair_eq_snd. vm_compute. reflexivity.
Defined.

Lemma batches_follow_registration_order_witness :
  subseq ["a"; "c"]%string (map (@file Schema) abc) /\
  subseq ["c"; "b"; "a"]%string (rev (map (@file Schema) abc)).
Proof.
  split.
  - apply (proj1 (@batches_follow_registration_order Schema (runner_of abc) 1
                    (fst (saveAppliedMigration (runner_of abc) (booted abc) "b"))
                    (fst (Up (runner_of abc)
                            (fst (saveAppliedMigration (runner_of abc) (booted abc) "b"))))
                    ["a"; "c"]%string)).
    apply pair_eq_snd. vm_compute. reflexivity.
  - apply (proj2 (@batches_follow_registration_order Schema (runner_of abc) 1
                    (migrated abc) (fst (Down (runner_of abc) 1 (migrated abc)))
                    ["c"; "b"; "a"]%string)).
    apply pair_eq_snd. vm_compute. reflexivity.
Defined.

Lemma Down_looks_at_the_sign_only_witness :
  is_int (-7) /\
  Down (runner_of five) (-7) (migrated five) = Down (runner_of five) 0 (migrated five).
Proof.
  assert (Hi : is_int (-7)) by (unfold is_int, int_min, int_max; lia).
  split; [exact Hi|].
  exact (@Down_looks_at_the_sign_only Schema (runner_of five) (-7) (migrated five) Hi).
Defined.

Lemma isMigrationApplied_never_invents_witness :
  entries (runner_of abc) (migrated abc) "a" = 1 /\
  snd (isMigrationApplied (runner_of abc) (migrated abc) "zz") = false.
Proof.
  destruct (isMigrationApplied_never_invents (runner_of abc) (migrated abc) "a")
    as [H1 _].
  destruct (isMigrationApplied_never_invents (runner_of abc) (migrated abc) "zz")
    as [_ [H2 _]].
  split; [apply H1; reflexivity|]. rewrite (H2 eq_refl). reflexivity.
Defined.

Lemma record_then_look_up_witness :
  (entries (runner_of abc)
     (fst (saveAppliedMigration (runner_of abc) (booted abc) "x")) "x" = 1 /\
   snd (saveAppliedMigration (runner_of abc)
          (fst (saveAppliedMigration (runner_of abc) (booted abc) "x")) "x")
   = Some (unique_violation migrationsTable)) /\
  entries (runner_of abc)
    (fst (saveRevertedMigration (runner_of abc) (migrated abc) "b")) "b" = 0.
Proof.
  split.
  - destruct (@record_then_look_up Schema (runner_of abc) (booted abc)
                (fst (saveAppliedMigration (runner_of abc) (booted abc) "x")) "x")
      as [H _]; [vm_compute; reflexivity|].
    destruct H as [A [_ [_ B]]]; [apply pair_eq_snd; vm_compute; reflexivity|].
    split; [exact A | exact B].
  - destruct (@record_then_look_up Schema (runner_of abc) (migrated abc)
                (fst (saveRevertedMigration (runner_of abc) (migrated abc) "b")) "b")
      as [_ H]; [vm_compute; reflexivity|].
    apply H. apply pair_eq_snd. vm_compute. reflexivity.
Defined.

Lemma NewRunner_creates_or_keeps_the_ledger_witness :
  migrationsList (runner_of abc) = abc /\ tableName (runner_of abc) = migrationsTable /\
  conn_data (booted abc) = conn_data fresh /\
  (forall t, t <> migrationsTable -> tables (db (booted abc)) t = tables (db fresh) t) /\
  ledger_of (runner_of abc) (booted abc) = Some [].
Proof.
  apply (@NewRunner_creates_or_keeps_the_ledger Schema fresh abc (booted abc)
           (runner_of abc)).
  apply (pair_eq_snd (NewRunner fresh abc)). vm_compute. reflexivity.
Defined.

Lemma NewRunner_then_Up_on_a_new_database_witness :
  exists c0 r c1 rows,
    NewRunner fresh abc = (c0, Ok r) /\
    Up r c0 = (c1, Ok (map (@file Schema) abc)) /\
    ledger_of r c1 = Some rows /\ map row_file rows = map (@file Schema) abc /\
    conn_data c1 = ["a"; "b"; "c"]%string.
Proof.
  apply (@NewRunner_then_Up_on_a_new_database Schema fresh abc ["a"; "b"; "c"]%string).
  - reflexivity.
  - reflexivity.
  - exact NoDup_abc.
  - reflexivity.
Defined.

Lemma without_the_ledger_table_witness :
  (exists c', Down (runner_of abc) 3 fresh = (c', Ok []) /\ db c' = db fresh) /\
  (forall c' out, Up (runner_of abc) fresh = (c', Ok out) ->
                  migrationsList (runner_of abc) = [] /\ out = []).
Proof.
  apply (@without_the_ledger_table Schema (runner_of abc) 3 fresh). reflexivity.
Defined.

Lemma Down_keeps_the_primary_key_witness :
  exists rows', ledger_of (runner_of abc) (fst (Down (runner_of abc) 1 (migrated abc)))
                = Some rows' /\
                pk_ok rows' /\ (forall x, In x rows' -> In x abc_rows).
Proof.
  apply (@Down_keeps_the_primary_key Schema (runner_of abc) 1 (migrated abc)
           (fst (Down (runner_of abc) 1 (migrated abc))) abc_rows
           (snd (Down (runner_of abc) 1 (migrated abc)))).
  - vm_compute. reflexivity.
  - exact NoDup_abc.
  - apply surjective_pairing.
Defined.

Lemma Run_up_reports_Up_witness :
  snd (Run to_int no_quote no_file (runner_of abc) [] yes (booted abc)) = Ok tt /\
  console (fst (fst (Run to_int no_quote no_file (runner_of abc) [] yes (booted abc))))
  = [Green "Applied a"; Green "Applied b"; Green "Applied c"].
Proof.
  destruct (@Run_up_reports_Up Schema to_int no_quote no_file (runner_of abc) [] yes
              (booted abc) eq_refl) as [_ [A [_ B]]].
  split; [rewrite A | rewrite B]; reflexivity.
Defined.

Lemma Run_down_reports_Down_witness :
  answers (fst (fst (Run to_int no_quote no_file (runner_of abc) ["down"; "-1"]%string
                       yes (migrated abc)))) = [] /\
  console (fst (fst (Run to_int no_quote no_file (runner_of abc) ["down"; "-1"]%string
                       yes (migrated abc))))
  = [Asked "Do you really want to revert the last 3 applied migration(s)?";
     Green "Reverted c"; Green "Reverted b"; Green "Reverted a"].
Proof.
  destruct (@Run_down_reports_Down Schema to_int no_quote no_file (runner_of abc)
              ["down"; "-1"]%string yes (migrated abc) [] eq_refl eq_refl) as [A B].
  split; [exact A | rewrite B; reflexivity].
Defined.

Lemma Run_leaves_the_database_alone_witness :
  snd (fst (Run to_int no_quote no_file (runner_of abc) ["down"; "2"]%string no
              (migrated abc))) = migrated abc /\
  snd (fst (Run to_int no_quote no_file (runner_of abc) ["status"]%string yes
              (migrated abc))) = migrated abc.
Proof.
  split.
  - apply Run_leaves_the_database_alone.
    + simpl. discriminate.
    + intros _. reflexivity.
  - apply Run_leaves_the_database_alone.
    + simpl. discriminate.
    + simpl. discriminate.
Defined.

(** With "b" already recorded, [Up] applies "a" and "c". *)
Lemma Up_applies_exactly_the_pending_units_witness :
  exists c' new,
    Up (runner_of abc) (fst (saveAppliedMigration (runner_of abc) (booted abc) "b"))
    = (c', Ok ["a"; "c"]%string) /\
    ledger_of (runner_of abc) c'
    = Some ([{| row_file := "b"; row_applied := 1700000000 |}] ++ new) /\
    map row_file new = ["a"; "c"]%string /\
    conn_data c' = ["a"; "c"]%string.
Proof.
  apply (@Up_applies_exactly_the_pending_units Schema (runner_of abc)
           (fst (saveAppliedMigration (runner_of abc) (booted abc) "b"))
           [{| row_file := "b"; row_applied := 1700000000 |}] ["a"; "c"]%string).
  - vm_compute. reflexivity.
  - vm_compute. reflexivity.
  - repeat constructor. simpl. tauto.
  - exact NoDup_abc.
  - vm_compute. reflexivity.
Defined.
